(** * chaincfg: network parameters, the network registry and the
      difficulty-window dampening band

    A shallow embedding of [chaincfg/params.go]: the [Params] record, the
    three timespan methods ([AveragingWindowTimespan], [MaxActualTimespan],
    [MinActualTimespan]) and the package-level registry ([Register],
    [IsPubKeyHashAddrID], [IsScriptHashAddrID], [IsAztecAddrID],
    [HDPrivateKeyToPublicKeyID], [init]).

    Go's [int64] and [time.Duration] are integers with two's-complement
    wrap-around, the registry's five package-level maps are finite maps and
    sets threaded explicitly through every call. *)

From Stdlib Require Import ZArith Lia Strings.Byte Strings.Ascii Strings.String.
From stdpp Require Import base decidable countable strings gmap list.

Local Open Scope Z_scope.

#[local] Set Warnings "-clear-no-such-hyp".  (* raised inside set_solver *)

(* ===================================================================== *)
(** ** 64-bit signed arithmetic (Go [int64], [time.Duration]) *)
(* ===================================================================== *)

Module Int64.

Definition modulus : Z := 2 ^ 64.
Definition half_modulus : Z := 2 ^ 63.
Definition min_signed : Z := - half_modulus.
Definition max_signed : Z := half_modulus - 1.

(** The value of an exact integer once stored in an [int64]. *)
Definition wrap (z : Z) : Z := (z + half_modulus) mod modulus - half_modulus.

Definition in_range (z : Z) : Prop := min_signed <= z <= max_signed.

Definition add (a b : Z) : Z := wrap (a + b).
Definition sub (a b : Z) : Z := wrap (a - b).
Definition mul (a b : Z) : Z := wrap (a * b).

(** Go's [/] on signed integers truncates toward zero.  The only
    quotient that leaves the range is [min_signed / -1]; the package divides
    by the constant 100 only. *)
Definition quot (a b : Z) : Z := wrap (Z.quot a b).

End Int64.

(* ===================================================================== *)
(** ** Package [time]: durations are [int64] nanosecond counts *)
(* ===================================================================== *)

Module time.

Definition Duration := Z.

Definition Nanosecond : Duration := 1.
Definition Microsecond : Duration := 1000 * Nanosecond.
Definition Millisecond : Duration := 1000 * Microsecond.
Definition Second : Duration := 1000 * Millisecond.
Definition Minute : Duration := 60 * Second.
Definition Hour : Duration := 60 * Minute.

(** [time.Duration(x)] for an [int] or [int64] operand. *)
Definition of_int (x : Z) : Duration := Int64.wrap x.

End time.

(* ===================================================================== *)
(** ** Bytes and fixed four-byte arrays *)
(* ===================================================================== *)

#[global] Instance byte_eq_decision : EqDecision byte := Byte.byte_eq_dec.

#[global] Instance byte_countable : Countable byte :=
  inj_countable Byte.to_N Byte.of_N Byte.of_to_N.

(** Go's [[4]byte]. *)
Definition byte4 : Type := byte * byte * byte * byte.

(** [a[:]]: the slice over the whole array. *)
Definition slice4 (a : byte4) : list byte :=
  let '(b0, b1, b2, b3) := a in [b0; b1; b2; b3].

(** [var key [4]byte; copy(key[:], id)]: a zeroed array overwritten by the
    first [min 4 (len id)] bytes of [id]. *)
Definition copy4 (id : list byte) : byte4 :=
  (nth 0 id x00, nth 1 id x00, nth 2 id x00, nth 3 id x00).

(* ===================================================================== *)
(** ** [Checkpoint] and [Params] *)
(* ===================================================================== *)

(** [wire.BitcoinNet] is a [uint32]. *)
Definition BitcoinNet := Z.

Record Checkpoint := {
  Height : Z;
  Hash : list byte
}.

(** The genesis block and hash are pointers to constants of another file and
    play no part in the functions below; every other field is kept. *)
Record Params := {
  Name : string;
  Net : BitcoinNet;
  DefaultPort : string;
  DNSSeeds : list string;
  InitialValidatorPubKeys : list (list byte);
  PowLimit : Z;
  PowLimitBits : Z;
  CoinbaseMaturity : Z;
  SubsidyReductionInterval : Z;
  TargetTimespan : time.Duration;
  TargetTimePerBlock : time.Duration;
  ReduceMinDifficulty : bool;
  MinDiffReductionTime : time.Duration;
  GenerateSupported : bool;
  Checkpoints : list Checkpoint;
  BlockEnforceNumRequired : Z;
  BlockRejectNumRequired : Z;
  BlockUpgradeNumToCheck : Z;
  RelayNonStdTxs : bool;
  PubKeyHashAddrID : byte;
  ScriptHashAddrID : byte;
  AztecAddrID : byte;
  PrivateKeyID : byte;
  HDPrivateKeyID : byte4;
  HDPublicKeyID : byte4;
  HDCoinType : Z;
  PowAveragingWindow : Z;
  PowMaxAdjustDown : Z;
  PowMaxAdjustUp : Z;
  ChainTrailingSigKeyIdLimit : Z;
  ChainWindowShareLimit : Z
}.

(* ===================================================================== *)
(** ** The timespan methods *)
(* ===================================================================== *)

(** [time.Duration(p.PowAveragingWindow) * p.TargetTimePerBlock].
    [PowAveragingWindow] is an [int] (32 or 64 bits): the conversion keeps
    its value, and the product is an [int64] product. *)
Definition AveragingWindowTimespan (p : Params) : time.Duration :=
  Int64.mul (time.of_int (PowAveragingWindow p)) (TargetTimePerBlock p).

(** [dampenPercentage := time.Duration(100 + p.PowMaxAdjustDown)]
    [return (p.AveragingWindowTimespan() * dampenPercentage) / 100] *)
Definition MaxActualTimespan (p : Params) : time.Duration :=
  let dampenPercentage := time.of_int (Int64.add 100 (PowMaxAdjustDown p)) in
  Int64.quot (Int64.mul (AveragingWindowTimespan p) dampenPercentage) 100.

(** [dampenPercentage := time.Duration(100 - p.PowMaxAdjustUp)]
    [return (p.AveragingWindowTimespan() * dampenPercentage) / 100] *)
Definition MinActualTimespan (p : Params) : time.Duration :=
  let dampenPercentage := time.of_int (Int64.sub 100 (PowMaxAdjustUp p)) in
  Int64.quot (Int64.mul (AveragingWindowTimespan p) dampenPercentage) 100.

(* ===================================================================== *)
(** ** The built-in networks *)
(* ===================================================================== *)

Definition mainPowLimit : Z := 2 ^ 243 - 1.
Definition regressionPowLimit : Z :=
  0x0f0f0f0f0f0f0f0f0f0f0f0f0f0f0f0f0f0f0f0f0f0f0f0f0f0f0f0f0f0f0f0f.
Definition testNet3PowLimit : Z :=
  0x07ffffffffffffffffffffffffffffffffffffffffffffffffffffffffffffff.
Definition simNetPowLimit : Z := 2 ^ 255 - 1.

(** The four records carry the same literal for [InitialValidatorPubKeys]. *)
Definition initialValidatorPubKeys : list (list byte) :=
  [ [ x03; x5f; x51; x03; x85; x2b; xd7; xd9;
      xc9; xc2; x8e; x44; xca; xf1; xf7; x18;
      x89; x41; xe1; x62; x95; x06; x2c; xa4;
      xc8; x99; x28; xa8; xcc; xff; x99; x3c; xd3 ];
    [ x02; x65; xde; x49; x39; x9e; x78; x02;
      x00; x26; x21; x94; x92; xe2; xa6; xe1;
      xa4; x1e; x93; x59; x1b; x87; x22; x0a;
      xe8; xa2; xf3; xeb; xf3; x47; x3d; xbe; xef ];
    [ x03; x9c; xb9; x4c; x99; xc4; x70; x09;
      x18; x25; x0c; x40; xfa; x35; xb7; xfa;
      x0a; x75; xa9; x67; xc9; x36; x6a; xa1;
      x9b; x8f; xc3; x54; x37; x33; x68; xbe; xef ];
    [ x03; x13; x37; xab; x09; x07; x02; x54;
      x63; x80; x75; xc7; xb5; x96; x43; xdc;
      xe2; xd6; x0c; x52; x60; xbf; x58; x41;
      xd2; xf8; xcc; x6f; x75; xf6; x79; x0d; x4e ] ].

(** The network magics [wire.MainNet], [wire.TestNet], [wire.TestNet3] and
    [wire.SimNet] are constants of package [wire]; the records below are
    stated for arbitrary values of them. *)
Record WireNets := {
  MainNet : BitcoinNet;
  TestNet : BitcoinNet;
  TestNet3 : BitcoinNet;
  SimNet : BitcoinNet
}.

Section BuiltinNetworks.

Variable wire : WireNets.

Definition MainNetParams : Params := {|
  Name := "mainnet";
  Net := MainNet wire;
  DefaultPort := "7979";
  DNSSeeds := [];
  InitialValidatorPubKeys := initialValidatorPubKeys;
  PowLimit := mainPowLimit;
  PowLimitBits := 0x1f07ffff;
  CoinbaseMaturity := 100;
  SubsidyReductionInterval := 210000;
  TargetTimespan := time.Hour * 24 * 14;
  TargetTimePerBlock := time.Minute;
  ReduceMinDifficulty := false;
  MinDiffReductionTime := 0;
  GenerateSupported := false;
  Checkpoints := [];
  BlockEnforceNumRequired := 750;
  BlockRejectNumRequired := 950;
  BlockUpgradeNumToCheck := 1000;
  RelayNonStdTxs := false;
  PubKeyHashAddrID := x00;
  ScriptHashAddrID := x05;
  PrivateKeyID := x80;
  AztecAddrID := x33;
  HDPrivateKeyID := (x04, x88, xad, xe4);
  HDPublicKeyID := (x04, x88, xb2, x1e);
  HDCoinType := 0;
  PowAveragingWindow := 17;
  PowMaxAdjustDown := 32;
  PowMaxAdjustUp := 16;
  ChainTrailingSigKeyIdLimit := 2;
  ChainWindowShareLimit := 25
|}.

Definition RegressionNetParams : Params := {|
  Name := "regtest";
  Net := TestNet wire;
  DefaultPort := "18444";
  DNSSeeds := [];
  InitialValidatorPubKeys := initialValidatorPubKeys;
  PowLimit := regressionPowLimit;
  PowLimitBits := 0x200f0f0f;
  CoinbaseMaturity := 100;
  SubsidyReductionInterval := 150;
  TargetTimespan := time.Hour * 24 * 14;
  TargetTimePerBlock := time.Minute;
  ReduceMinDifficulty := true;
  MinDiffReductionTime := time.Minute * 20;
  GenerateSupported := true;
  Checkpoints := [];
  BlockEnforceNumRequired := 750;
  BlockRejectNumRequired := 950;
  BlockUpgradeNumToCheck := 1000;
  RelayNonStdTxs := true;
  PubKeyHashAddrID := x6f;
  ScriptHashAddrID := xc4;
  AztecAddrID := x58;
  PrivateKeyID := xef;
  HDPrivateKeyID := (x04, x35, x83, x94);
  HDPublicKeyID := (x04, x35, x87, xcf);
  HDCoinType := 1;
  PowAveragingWindow := 17;
  PowMaxAdjustDown := 32;
  PowMaxAdjustUp := 16;
  ChainTrailingSigKeyIdLimit := 0;
  ChainWindowShareLimit := 0
|}.

Definition TestNet3Params : Params := {|
  Name := "testnet3";
  Net := TestNet3 wire;
  DefaultPort := "17979";
  DNSSeeds := [];
  InitialValidatorPubKeys := initialValidatorPubKeys;
  PowLimit := testNet3PowLimit;
  PowLimitBits := 0x2007ffff;
  CoinbaseMaturity := 100;
  SubsidyReductionInterval := 210000;
  TargetTimespan := time.Hour * 24 * 14;
  TargetTimePerBlock := time.Minute;
  ReduceMinDifficulty := true;
  MinDiffReductionTime := time.Minute * 20;
  GenerateSupported := false;
  Checkpoints := [];
  BlockEnforceNumRequired := 51;
  BlockRejectNumRequired := 75;
  BlockUpgradeNumToCheck := 100;
  RelayNonStdTxs := true;
  PubKeyHashAddrID := x6f;
  ScriptHashAddrID := xc4;
  PrivateKeyID := xef;
  AztecAddrID := x58;
  HDPrivateKeyID := (x04, x35, x83, x94);
  HDPublicKeyID := (x04, x35, x87, xcf);
  HDCoinType := 1;
  PowAveragingWindow := 17;
  PowMaxAdjustDown := 64;
  PowMaxAdjustUp := 64;
  ChainTrailingSigKeyIdLimit := 45;
  ChainWindowShareLimit := 50
|}.

(** [AztecAddrID] is not set in the literal and keeps its zero value. *)
Definition SimNetParams : Params := {|
  Name := "simnet";
  Net := SimNet wire;
  DefaultPort := "18555";
  DNSSeeds := [];
  InitialValidatorPubKeys := initialValidatorPubKeys;
  PowLimit := simNetPowLimit;
  PowLimitBits := 0x207fffff;
  CoinbaseMaturity := 100;
  SubsidyReductionInterval := 210000;
  TargetTimespan := time.Hour * 24 * 14;
  TargetTimePerBlock := time.Minute;
  ReduceMinDifficulty := true;
  MinDiffReductionTime := time.Minute * 20;
  GenerateSupported := true;
  Checkpoints := [];
  BlockEnforceNumRequired := 51;
  BlockRejectNumRequired := 75;
  BlockUpgradeNumToCheck := 100;
  RelayNonStdTxs := true;
  PubKeyHashAddrID := x3f;
  ScriptHashAddrID := x7b;
  PrivateKeyID := x64;
  AztecAddrID := x00;
  HDPrivateKeyID := (x04, x20, xb9, x00);
  HDPublicKeyID := (x04, x20, xbd, x3a);
  HDCoinType := 115;
  PowAveragingWindow := 17;
  PowMaxAdjustDown := 32;
  PowMaxAdjustUp := 16;
  ChainTrailingSigKeyIdLimit := 2;
  ChainWindowShareLimit := 25
|}.

End BuiltinNetworks.

(* ===================================================================== *)
(** ** The registry: five package-level maps *)
(* ===================================================================== *)

Inductive error := ErrDuplicateNet | ErrUnknownHDKeyID.

#[global] Instance error_eq_decision : EqDecision error.
Proof. solve_decision. Defined.

(** A [map[K]struct{}] is a finite set of keys. *)
Record Registry := {
  registeredNets : gset BitcoinNet;
  pubKeyHashAddrIDs : gset byte;
  scriptHashAddrIDs : gset byte;
  aztecAddrIDs : gset byte;
  hdPrivToPubKeyIDs : gmap byte4 (list byte)
}.

(** The state after the five [make] calls. *)
Definition emptyRegistry : Registry := {|
  registeredNets := ∅;
  pubKeyHashAddrIDs := ∅;
  scriptHashAddrIDs := ∅;
  aztecAddrIDs := ∅;
  hdPrivToPubKeyIDs := ∅
|}.

(** [Register]: the returned [error] is [None] for Go's [nil].  The
    duplicate check returns before any of the five writes.  The stored
    value [params.HDPublicKeyID[:]] is a slice over the caller's record; the
    package never writes through it, so it is kept as the four bytes it
    holds at the call. *)
Definition Register (params : Params) (g : Registry) : option error * Registry :=
  if decide (Net params ∈ registeredNets g) then (Some ErrDuplicateNet, g)
  else
    (None,
     {| registeredNets := {[ Net params ]} ∪ registeredNets g;
        pubKeyHashAddrIDs := {[ PubKeyHashAddrID params ]} ∪ pubKeyHashAddrIDs g;
        scriptHashAddrIDs := {[ ScriptHashAddrID params ]} ∪ scriptHashAddrIDs g;
        aztecAddrIDs :=
          if decide (AztecAddrID params ≠ x00)
          then {[ AztecAddrID params ]} ∪ aztecAddrIDs g
          else aztecAddrIDs g;
        hdPrivToPubKeyIDs :=
          <[ HDPrivateKeyID params := slice4 (HDPublicKeyID params) ]>
            (hdPrivToPubKeyIDs g) |}).

(** [mustRegister] panics on an error: [None] is the panic. *)
Definition mustRegister (params : Params) (g : Registry) : option Registry :=
  match Register params g with
  | (Some _, _) => None
  | (None, g') => Some g'
  end.

Definition IsPubKeyHashAddrID (id : byte) (g : Registry) : bool :=
  bool_decide (id ∈ pubKeyHashAddrIDs g).

Definition IsScriptHashAddrID (id : byte) (g : Registry) : bool :=
  bool_decide (id ∈ scriptHashAddrIDs g).

Definition IsAztecAddrID (id : byte) (g : Registry) : bool :=
  bool_decide (id ∈ aztecAddrIDs g).

(** Go's two results [([]byte, error)]; the [nil] slice is [[]]. *)
Definition HDPrivateKeyToPublicKeyID (id : list byte) (g : Registry)
  : list byte * option error :=
  if decide (length id ≠ 4%nat) then ([], Some ErrUnknownHDKeyID)
  else
    let key := copy4 id in
    match hdPrivToPubKeyIDs g !! key with
    | None => ([], Some ErrUnknownHDKeyID)
    | Some pubBytes => (pubBytes, None)
    end.

(** The package's [init], run on the freshly made maps. *)
Definition init (wire : WireNets) : option Registry :=
  g1 ← mustRegister (MainNetParams wire) emptyRegistry;
  g2 ← mustRegister (TestNet3Params wire) g1;
  g3 ← mustRegister (RegressionNetParams wire) g2;
  mustRegister (SimNetParams wire) g3.

(* ===================================================================== *)
(** ** Histories of calls *)
(* ===================================================================== *)

(** A run of [Register] calls, one after the other on the same maps; a call
    that returns an error does not stop the run. *)
Fixpoint registerAll (ps : list Params) (g : Registry) : Registry :=
  match ps with
  | [] => g
  | p :: ps' => registerAll ps' (Register p g).2
  end.

(** The records of the run whose [Register] call returned [nil]. *)
Fixpoint accepted (ps : list Params) (g : Registry) : list Params :=
  match ps with
  | [] => []
  | p :: ps' =>
      match Register p g with
      | (None, g') => p :: accepted ps' g'
      | (Some _, g') => accepted ps' g'
      end
  end.

(** The most recent record of [ps] whose private HD magic is [key]. *)
Definition lastWithHDPrivateKeyID (key : byte4) (ps : list Params) : option Params :=
  last (filter (λ p, HDPrivateKeyID p = key) ps).

(** The exported entry points as calls on the shared maps.  The four queries
    only read the maps. *)
Inductive call :=
  | CallRegister (params : Params)
  | CallIsPubKeyHashAddrID (id : byte)
  | CallIsScriptHashAddrID (id : byte)
  | CallIsAztecAddrID (id : byte)
  | CallHDPrivateKeyToPublicKeyID (id : list byte).

Inductive reply :=
  | ReplyError (err : option error)
  | ReplyBool (ok : bool)
  | ReplyBytes (pubBytes : list byte) (err : option error).

Definition exec (c : call) (g : Registry) : reply * Registry :=
  match c with
  | CallRegister params => let '(err, g') := Register params g in (ReplyError err, g')
  | CallIsPubKeyHashAddrID id => (ReplyBool (IsPubKeyHashAddrID id g), g)
  | CallIsScriptHashAddrID id => (ReplyBool (IsScriptHashAddrID id g), g)
  | CallIsAztecAddrID id => (ReplyBool (IsAztecAddrID id g), g)
  | CallHDPrivateKeyToPublicKeyID id =>
      let '(pubBytes, err) := HDPrivateKeyToPublicKeyID id g in
      (ReplyBytes pubBytes err, g)
  end.

Fixpoint execAll (cs : list call) (g : Registry) : Registry :=
  match cs with
  | [] => g
  | c :: cs' => execAll cs' (exec c g).2
  end.

(** The records [init] registers, in its order. *)
Definition builtinNetworks (wire : WireNets) : list Params :=
  [MainNetParams wire; TestNet3Params wire; RegressionNetParams wire;
   SimNetParams wire].

(** Every identifier claimed in [g] is claimed in [g']. *)
Definition claimsKept (g g' : Registry) : Prop :=
  registeredNets g ⊆ registeredNets g'
  ∧ pubKeyHashAddrIDs g ⊆ pubKeyHashAddrIDs g'
  ∧ scriptHashAddrIDs g ⊆ scriptHashAddrIDs g'
  ∧ aztecAddrIDs g ⊆ aztecAddrIDs g'
  ∧ dom (hdPrivToPubKeyIDs g) ⊆ dom (hdPrivToPubKeyIDs g').

(* ===================================================================== *)
(** ** [powLimitFromStr] *)
(* ===================================================================== *)

(** The digit value [math/big]'s scanner gives a byte: decimal digits, then
    letters of either case counting from ten. *)
Definition digitVal (ch : ascii) : option Z :=
  let c := Z.of_N (N_of_ascii ch) in
  if (48 <=? c) && (c <=? 57) then Some (c - 48)
  else if (97 <=? c) && (c <=? 122) then Some (c - 97 + 10)
  else if (65 <=? c) && (c <=? 90) then Some (c - 65 + 10)
  else None.

(** An optional leading sign. *)
Definition scanSign (s : string) : bool * string :=
  match s with
  | String "-" rest => (true, rest)
  | String "+" rest => (false, rest)
  | _ => (false, s)
  end.

(** Digits of the base are accumulated until the first byte that is not
    one; that byte and what follows it are left unread. *)
Fixpoint scanDigits (base acc : Z) (count : nat) (s : string) : Z * nat * string :=
  match s with
  | EmptyString => (acc, count, EmptyString)
  | String ch rest =>
      match digitVal ch with
      | Some d =>
          if d <? base then scanDigits base (acc * base + d) (S count) rest
          else (acc, count, s)
      | None => (acc, count, s)
      end
  end.

(** [SetString(s, base)] of [math/big]'s [Int] for an explicit base between 2 and 36: a
    sign, at least one digit, and nothing after the digits.  [None] is the
    failure, after which the receiver's value is undefined. *)
Definition SetString (s : string) (base : Z) : option Z :=
  let '(neg, digits) := scanSign s in
  let '(abs, count, unread) := scanDigits base 0 0 digits in
  match count, unread with
  | O, _ => None
  | S _, EmptyString => Some (if neg then - abs else abs)
  | S _, String _ _ => None
  end.

(** [powLimitFromStr] drops [SetString]'s success flag and returns the
    receiver: its value is defined exactly when the parse succeeds. *)
Definition powLimitFromStr (hexStr : string) : option Z := SetString hexStr 16.

(* ===================================================================== *)
(** ** Sample inputs *)
(* ===================================================================== *)

(** A record with the given registry keys and difficulty-window fields and
    Go's zero value in every other field. *)
Definition customParams (net : BitcoinNet) (pubKeyHash scriptHash aztec : byte)
    (hdPriv hdPub : byte4) (window : Z) (perBlock : time.Duration)
    (adjustDown adjustUp : Z) : Params := {|
  Name := "";
  Net := net;
  DefaultPort := "";
  DNSSeeds := [];
  InitialValidatorPubKeys := [];
  PowLimit := 0;
  PowLimitBits := 0;
  CoinbaseMaturity := 0;
  SubsidyReductionInterval := 0;
  TargetTimespan := 0;
  TargetTimePerBlock := perBlock;
  ReduceMinDifficulty := false;
  MinDiffReductionTime := 0;
  GenerateSupported := false;
  Checkpoints := [];
  BlockEnforceNumRequired := 0;
  BlockRejectNumRequired := 0;
  BlockUpgradeNumToCheck := 0;
  RelayNonStdTxs := false;
  PubKeyHashAddrID := pubKeyHash;
  ScriptHashAddrID := scriptHash;
  AztecAddrID := aztec;
  PrivateKeyID := x00;
  HDPrivateKeyID := hdPriv;
  HDPublicKeyID := hdPub;
  HDCoinType := 0;
  PowAveragingWindow := window;
  PowMaxAdjustDown := adjustDown;
  PowMaxAdjustUp := adjustUp;
  ChainTrailingSigKeyIdLimit := 0;
  ChainWindowShareLimit := 0
|}.

(** Four pairwise distinct network magics. *)
Definition sampleWire : WireNets := {|
  MainNet := 0xd9b4bef9;
  TestNet := 0xdab5bffa;
  TestNet3 := 0x0709110b;
  SimNet := 0x12141c16
|}.

(** A window of 100000 one-day blocks: the window itself fits an [int64]
    count of nanoseconds, its product with a percentage does not. *)
Definition longWindowParams : Params :=
  customParams 1 x00 x00 x00 (x00, x00, x00, x00) (x00, x00, x00, x00)
    100000 (time.Hour * 24) 32 16.

(** A window whose length is not a multiple of 100 nanoseconds. *)
Definition oddWindowParams : Params :=
  customParams 1 x00 x00 x00 (x00, x00, x00, x00) (x00, x00, x00, x00)
    1 150 32 16.

(** Two networks with distinct magics and the same private HD magic but
    different public HD magics. *)
Definition firstHDParams : Params :=
  customParams 1 x00 x05 x00 (x04, x88, xad, xe4) (x04, x88, xb2, x1e)
    17 time.Minute 32 16.

Definition secondHDParams : Params :=
  customParams 2 x00 x05 x00 (x04, x88, xad, xe4) (x04, x35, x87, xcf)
    17 time.Minute 32 16.

(** A custom network that reuses the main network's magic of [sampleWire]
    with identifiers of its own. *)
Definition mainMagicCustomParams : Params :=
  customParams 0xd9b4bef9 x11 x22 x44 (x01, x02, x03, x04) (x05, x06, x07, x08)
    17 time.Minute 32 16.

(* ===================================================================== *)
(** ** The dampening formulas as the specification words them *)
(* ===================================================================== *)

(** Exact integers: no width, truncating division. *)
Module Spec.

Definition averaging_window_timespan (p : Params) : Z :=
  PowAveragingWindow p * TargetTimePerBlock p.

Definition max_actual_timespan (p : Params) : Z :=
  Z.quot (averaging_window_timespan p * (100 + PowMaxAdjustDown p)) 100.

Definition min_actual_timespan (p : Params) : Z :=
  Z.quot (averaging_window_timespan p * (100 - PowMaxAdjustUp p)) 100.

(** The other order, dividing first: what the formulas must not be. *)
Definition max_actual_timespan_divide_first (p : Params) : Z :=
  Z.quot (averaging_window_timespan p) 100 * (100 + PowMaxAdjustDown p).

Definition min_actual_timespan_divide_first (p : Params) : Z :=
  Z.quot (averaging_window_timespan p) 100 * (100 - PowMaxAdjustUp p).

End Spec.

(* ===================================================================== *)
(** ** Lemmas on 64-bit arithmetic *)
(* ===================================================================== *)

Module Int64Facts.
Import Int64.

Lemma wrap_in_range z : in_range (wrap z).
Proof.
  unfold in_range, wrap, min_signed, max_signed, modulus, half_modulus.
  pose proof (Z.mod_pos_bound (z + 2 ^ 63) (2 ^ 64) ltac:(lia)). lia.
Qed.

Lemma wrap_small z : in_range z → wrap z = z.
Proof.
  unfold in_range, wrap, min_signed, max_signed, modulus, half_modulus.
  intros Hz. rewrite Z.mod_small by lia. lia.
Qed.

(** Adding a multiple of [2^64] is invisible after wrapping. *)
Lemma wrap_shift z k : wrap (z + k * modulus) = wrap z.
Proof.
  unfold wrap. replace (z + k * modulus + half_modulus)
    with (z + half_modulus + k * modulus) by lia.
  rewrite Z.mod_add; [done | unfold modulus; lia].
Qed.

Lemma wrap_decompose z : ∃ k, wrap z = z + k * modulus.
Proof.
  exists (- ((z + half_modulus) / modulus)). unfold wrap.
  pose proof (Z.div_mod (z + half_modulus) modulus) as Hdm.
  unfold modulus in *. lia.
Qed.

Lemma wrap_idemp z : wrap (wrap z) = wrap z.
Proof. apply wrap_small, wrap_in_range. Qed.

Lemma wrap_mul_l a b : wrap (wrap a * b) = wrap (a * b).
Proof.
  destruct (wrap_decompose a) as [k ->].
  replace ((a + k * modulus) * b) with (a * b + (k * b) * modulus) by lia.
  apply wrap_shift.
Qed.

Lemma wrap_mul_r a b : wrap (a * wrap b) = wrap (a * b).
Proof. rewrite (Z.mul_comm a), wrap_mul_l. f_equal; lia. Qed.

(** Truncated division by a positive constant cannot leave the range. *)
Lemma quot_small a b : in_range a → 0 < b → quot a b = Z.quot a b.
Proof.
  intros Ha Hb. apply wrap_small.
  unfold in_range, min_signed, max_signed, half_modulus in *.
  destruct (Z.le_gt_cases 0 a) as [Hpos | Hneg].
  - pose proof (Z.quot_pos a b Hpos ltac:(lia)).
    pose proof (Z.quot_le_upper_bound a b (2 ^ 63 - 1) Hb) as Hu.
    nia.
  - rewrite <- (Z.opp_involutive a), Z.quot_opp_l by lia.
    pose proof (Z.quot_pos (- a) b ltac:(lia) ltac:(lia)).
    pose proof (Z.quot_le_upper_bound (- a) b (2 ^ 63) Hb) as Hu.
    nia.
Qed.

End Int64Facts.

(* ===================================================================== *)
(** ** The timespan methods against the specification's formulas *)
(* ===================================================================== *)

Section Timespans.
Import Int64 Int64Facts.

Variable p : Params.

Lemma AveragingWindowTimespan_wrap :
  AveragingWindowTimespan p = wrap (Spec.averaging_window_timespan p).
Proof.
  unfold AveragingWindowTimespan, time.of_int, mul. apply wrap_mul_l.
Qed.

Lemma MaxActualTimespan_wrap :
  MaxActualTimespan p =
  Z.quot (wrap (Spec.averaging_window_timespan p * (100 + PowMaxAdjustDown p))) 100.
Proof.
  unfold MaxActualTimespan. rewrite quot_small by (apply wrap_in_range || lia).
  f_equal. rewrite AveragingWindowTimespan_wrap.
  unfold time.of_int, add, mul. rewrite !wrap_idemp, wrap_mul_l, wrap_mul_r.
  done.
Qed.

Lemma MinActualTimespan_wrap :
  MinActualTimespan p =
  Z.quot (wrap (Spec.averaging_window_timespan p * (100 - PowMaxAdjustUp p))) 100.
Proof.
  unfold MinActualTimespan. rewrite quot_small by (apply wrap_in_range || lia).
  f_equal. rewrite AveragingWindowTimespan_wrap.
  unfold time.of_int, sub, mul. rewrite !wrap_idemp, wrap_mul_l, wrap_mul_r.
  done.
Qed.

Lemma AveragingWindowTimespan_exact :
  in_range (Spec.averaging_window_timespan p) →
  AveragingWindowTimespan p = Spec.averaging_window_timespan p.
Proof. intros H. rewrite AveragingWindowTimespan_wrap. by apply wrap_small. Qed.

Lemma MaxActualTimespan_exact :
  in_range (Spec.averaging_window_timespan p * (100 + PowMaxAdjustDown p)) →
  MaxActualTimespan p = Spec.max_actual_timespan p.
Proof.
  intros H. rewrite MaxActualTimespan_wrap. unfold Spec.max_actual_timespan.
  by rewrite wrap_small.
Qed.

Lemma MinActualTimespan_exact :
  in_range (Spec.averaging_window_timespan p * (100 - PowMaxAdjustUp p)) →
  MinActualTimespan p = Spec.min_actual_timespan p.
Proof.
  intros H. rewrite MinActualTimespan_wrap. unfold Spec.min_actual_timespan.
  by rewrite wrap_small.
Qed.

End Timespans.

(** Multiplying first is not dividing first: on a 150 ns window with a 32%
    allowance the method returns 198 ns, dividing first would give 132 ns. *)
Example multiply_before_divide_matters :
  MaxActualTimespan oddWindowParams = 198
  ∧ Spec.max_actual_timespan_divide_first oddWindowParams = 132
  ∧ MinActualTimespan oddWindowParams = 126
  ∧ Spec.min_actual_timespan_divide_first oddWindowParams = 84.
Proof. by vm_compute. Qed.

(** C2, as stated for every record, fails: the products are [int64]
    products.  For a window of 100000 one-day blocks and a downward
    percentage of 32 every field and the window itself fit an [int64], but
    window * 132 does not: the exact formula gives 11404800000000000000 and
    the method returns -32181325699922001. *)
Lemma C2_exact_formulas_counterexample :
  Int64.in_range (PowAveragingWindow longWindowParams)
  ∧ Int64.in_range (TargetTimePerBlock longWindowParams)
  ∧ Int64.in_range (PowMaxAdjustDown longWindowParams)
  ∧ AveragingWindowTimespan longWindowParams
    = PowAveragingWindow longWindowParams * TargetTimePerBlock longWindowParams
  ∧ Z.quot (AveragingWindowTimespan longWindowParams
            * (100 + PowMaxAdjustDown longWindowParams)) 100
    = 11404800000000000000
  ∧ MaxActualTimespan longWindowParams = -32181325699922001
  ∧ MaxActualTimespan longWindowParams
    ≠ Z.quot (AveragingWindowTimespan longWindowParams
              * (100 + PowMaxAdjustDown longWindowParams)) 100
  ∧ MaxActualTimespan longWindowParams ≠ Spec.max_actual_timespan longWindowParams.
Proof. by vm_compute. Qed.

(** C2 (amended): for every record the three methods form window * block
    time, then that product times (100 + down) resp. (100 - up), and only
    then take the truncating quotient by 100, all in [int64] arithmetic:
    each result equals the specification's exact formula whenever the
    product it forms fits an [int64], and in every case it is that formula
    with the product wrapped to 64 bits before the division. *)
Theorem C2_timespan_formulas (p : Params) :
  AveragingWindowTimespan p = Int64.wrap (Spec.averaging_window_timespan p)
  ∧ MaxActualTimespan p =
      Z.quot (Int64.wrap
                (Spec.averaging_window_timespan p * (100 + PowMaxAdjustDown p))) 100
  ∧ MinActualTimespan p =
      Z.quot (Int64.wrap
                (Spec.averaging_window_timespan p * (100 - PowMaxAdjustUp p))) 100
  ∧ (Int64.in_range (Spec.averaging_window_timespan p) →
     AveragingWindowTimespan p = Spec.averaging_window_timespan p)
  ∧ (Int64.in_range (Spec.averaging_window_timespan p * (100 + PowMaxAdjustDown p)) →
     MaxActualTimespan p = Spec.max_actual_timespan p)
  ∧ (Int64.in_range (Spec.averaging_window_timespan p * (100 - PowMaxAdjustUp p)) →
     MinActualTimespan p = Spec.min_actual_timespan p).
Proof.
  repeat split.
  - apply AveragingWindowTimespan_wrap.
  - apply MaxActualTimespan_wrap.
  - apply MinActualTimespan_wrap.
  - apply AveragingWindowTimespan_exact.
  - apply MaxActualTimespan_exact.
  - apply MinActualTimespan_exact.
Qed.

Lemma C2_timespan_formulas_witness :
  AveragingWindowTimespan (TestNet3Params sampleWire) = 17 * time.Minute
  ∧ MaxActualTimespan (TestNet3Params sampleWire) = Z.quot (17 * time.Minute * 164) 100
  ∧ MinActualTimespan (TestNet3Params sampleWire) = Z.quot (17 * time.Minute * 36) 100.
Proof.
  pose proof (C2_timespan_formulas (TestNet3Params sampleWire))
    as (_ & _ & _ & Havg & Hmax & Hmin).
  split; [| split].
  - rewrite Havg; [reflexivity | by vm_compute].
  - rewrite Hmax; [reflexivity | by vm_compute].
  - rewrite Hmin; [reflexivity | by vm_compute].
Defined.

(* ===================================================================== *)
(** ** The main-network band *)
(* ===================================================================== *)

(** C5, as the specification states it, fails: durations count nanoseconds,
    so with a 17-block window of one-minute blocks and a 32% allowance the
    upper bound is 1346.4 s, not 1346 s (and the lower one 856.8 s, not
    856 s). *)
Lemma C5_whole_seconds_counterexample :
  PowAveragingWindow (MainNetParams sampleWire) = 17
  ∧ TargetTimePerBlock (MainNetParams sampleWire) = 60 * time.Second
  ∧ PowMaxAdjustDown (MainNetParams sampleWire) = 32
  ∧ PowMaxAdjustUp (MainNetParams sampleWire) = 16
  ∧ MaxActualTimespan (MainNetParams sampleWire) ≠ 1346 * time.Second
  ∧ MinActualTimespan (MainNetParams sampleWire) ≠ 856 * time.Second.
Proof. by vm_compute. Qed.

(** C5 (amended): on the main network, for any network magic, the window is
    1020 s, the upper bound is 1346.4 s = 1020 s * 132 / 100 and the lower
    bound is 856.8 s = 1020 s * 84 / 100, both divisions being exact on the
    nanosecond counts; their whole seconds are 1346 and 856. *)
Theorem C5_main_network_band (wire : WireNets) :
  AveragingWindowTimespan (MainNetParams wire) = 1020 * time.Second
  ∧ MaxActualTimespan (MainNetParams wire) = 1346400 * time.Millisecond
  ∧ MinActualTimespan (MainNetParams wire) = 856800 * time.Millisecond
  ∧ 100 * MaxActualTimespan (MainNetParams wire) = 1020 * time.Second * 132
  ∧ 100 * MinActualTimespan (MainNetParams wire) = 1020 * time.Second * 84
  ∧ Z.quot (MaxActualTimespan (MainNetParams wire)) time.Second = 1346
  ∧ Z.quot (MinActualTimespan (MainNetParams wire)) time.Second = 856.
Proof. by vm_compute. Qed.

(* ===================================================================== *)
(** ** Ordering of the dampening band *)
(* ===================================================================== *)

(** C10, as stated, fails: with non-negative fields and percentages within
    0..100 the product window * (100 + down) can exceed [int64], and the
    upper bound drops below the window. *)
Lemma C10_band_ordering_counterexample :
  0 ≤ PowAveragingWindow longWindowParams
  ∧ 0 ≤ TargetTimePerBlock longWindowParams
  ∧ 0 ≤ PowMaxAdjustDown longWindowParams
  ∧ 0 ≤ PowMaxAdjustUp longWindowParams ≤ 100
  ∧ Int64.in_range (PowAveragingWindow longWindowParams)
  ∧ Int64.in_range (TargetTimePerBlock longWindowParams)
  ∧ AveragingWindowTimespan longWindowParams = 8640000000000000000
  ∧ MaxActualTimespan longWindowParams = -32181325699922001
  ∧ ¬ (MinActualTimespan longWindowParams ≤ AveragingWindowTimespan longWindowParams
       ≤ MaxActualTimespan longWindowParams).
Proof.
  vm_compute. repeat split; try discriminate. intros [_ H]. by apply H.
Qed.

(** C10 (amended): when, besides the sign and range conditions, the product
    window * block time * (100 + down) fits an [int64], the band is ordered:
    min <= window <= max. *)
Theorem C10_band_ordering (p : Params) :
  0 ≤ PowAveragingWindow p →
  0 ≤ TargetTimePerBlock p →
  0 ≤ PowMaxAdjustDown p →
  0 ≤ PowMaxAdjustUp p ≤ 100 →
  PowAveragingWindow p * TargetTimePerBlock p * (100 + PowMaxAdjustDown p)
    ≤ Int64.max_signed →
  MinActualTimespan p ≤ AveragingWindowTimespan p ≤ MaxActualTimespan p.
Proof.
  intros Haw Htbt Hdown Hup Hfit.
  assert (Hprod : 0 ≤ PowAveragingWindow p * TargetTimePerBlock p) by nia.
  set (a := PowAveragingWindow p * TargetTimePerBlock p) in *.
  assert (Ha : a ≤ Int64.max_signed) by nia.
  rewrite AveragingWindowTimespan_exact, MaxActualTimespan_exact,
    MinActualTimespan_exact;
    unfold Spec.max_actual_timespan, Spec.min_actual_timespan,
      Spec.averaging_window_timespan, Int64.in_range, Int64.min_signed,
      Int64.max_signed, Int64.half_modulus in *; fold a; try nia.
  rewrite !Z.quot_div_nonneg by nia.
  split.
  - apply Z.div_le_upper_bound; nia.
  - apply Z.div_le_lower_bound; nia.
Qed.

Lemma C10_band_ordering_witness :
  MinActualTimespan (SimNetParams sampleWire)
    ≤ AveragingWindowTimespan (SimNetParams sampleWire)
    ≤ MaxActualTimespan (SimNetParams sampleWire).
Proof.
  apply (C10_band_ordering (SimNetParams sampleWire)); by vm_compute.
Defined.

(* ===================================================================== *)
(** ** [Register]: the two outcomes *)
(* ===================================================================== *)

Lemma Register_duplicate (p : Params) (g : Registry) :
  Net p ∈ registeredNets g → Register p g = (Some ErrDuplicateNet, g).
Proof. intros Hin. unfold Register. by rewrite decide_True. Qed.

Lemma Register_fresh (p : Params) (g : Registry) :
  Net p ∉ registeredNets g →
  Register p g =
    (None,
     {| registeredNets := {[ Net p ]} ∪ registeredNets g;
        pubKeyHashAddrIDs := {[ PubKeyHashAddrID p ]} ∪ pubKeyHashAddrIDs g;
        scriptHashAddrIDs := {[ ScriptHashAddrID p ]} ∪ scriptHashAddrIDs g;
        aztecAddrIDs :=
          if decide (AztecAddrID p ≠ x00)
          then {[ AztecAddrID p ]} ∪ aztecAddrIDs g
          else aztecAddrIDs g;
        hdPrivToPubKeyIDs :=
          <[ HDPrivateKeyID p := slice4 (HDPublicKeyID p) ]> (hdPrivToPubKeyIDs g) |}).
Proof. intros Hin. unfold Register. by rewrite decide_False. Qed.

Lemma Register_error_iff (p : Params) (g : Registry) :
  (Register p g).1 = Some ErrDuplicateNet ↔ Net p ∈ registeredNets g.
Proof.
  destruct (decide (Net p ∈ registeredNets g)) as [Hin | Hout].
  - by rewrite Register_duplicate.
  - by rewrite Register_fresh.
Qed.

Lemma Register_nil_iff (p : Params) (g : Registry) :
  (Register p g).1 = None ↔ Net p ∉ registeredNets g.
Proof.
  destruct (decide (Net p ∈ registeredNets g)) as [Hin | Hout].
  - by rewrite Register_duplicate.
  - by rewrite Register_fresh.
Qed.

Lemma Register_claims_magic (p : Params) (g : Registry) :
  Net p ∈ registeredNets (Register p g).2.
Proof.
  destruct (decide (Net p ∈ registeredNets g)) as [Hin | Hout].
  - by rewrite Register_duplicate.
  - rewrite Register_fresh by done. simpl. set_solver.
Qed.

Lemma Register_registeredNets (p : Params) (g : Registry) :
  registeredNets (Register p g).2 = {[ Net p ]} ∪ registeredNets g.
Proof.
  destruct (decide (Net p ∈ registeredNets g)) as [Hin | Hout].
  - rewrite Register_duplicate by done. simpl. set_solver.
  - by rewrite Register_fresh.
Qed.

Lemma registerAll_registeredNets (ps : list Params) (g : Registry) :
  registeredNets (registerAll ps g) = list_to_set (Net <$> ps) ∪ registeredNets g.
Proof.
  revert g. induction ps as [| p ps IH]; intros g; simpl.
  - set_solver.
  - rewrite IH, Register_registeredNets. set_solver.
Qed.

(** A run over records with pairwise distinct, unclaimed magics accepts
    every one of them. *)
Lemma accepted_all (ps : list Params) (g : Registry) :
  NoDup (Net <$> ps) →
  (∀ p, p ∈ ps → Net p ∉ registeredNets g) →
  accepted ps g = ps.
Proof.
  revert g. induction ps as [| p ps IH]; intros g Hnd Hfree; [done |].
  simpl in *. apply NoDup_cons in Hnd as [Hp Hnd].
  rewrite Register_fresh by (apply Hfree; set_solver).
  f_equal. apply IH; [done |]. intros q Hq. simpl.
  assert (Net q ≠ Net p).
  { intros Heq. apply Hp. rewrite <- Heq. by apply list_elem_of_fmap_2. }
  assert (Net q ∉ registeredNets g) by (apply Hfree; set_solver).
  set_solver.
Qed.

(* ===================================================================== *)
(** ** [init]: the four built-in networks *)
(* ===================================================================== *)

Lemma mustRegister_Some (p : Params) (g g' : Registry) :
  mustRegister p g = Some g' ↔ (Net p ∉ registeredNets g) ∧ g' = (Register p g).2.
Proof.
  unfold mustRegister.
  destruct (decide (Net p ∈ registeredNets g)) as [Hin | Hout].
  - rewrite Register_duplicate by done. naive_solver.
  - rewrite Register_fresh by done. simpl. naive_solver.
Qed.

Lemma init_Some (wire : WireNets) (g : Registry) :
  init wire = Some g →
  NoDup (Net <$> builtinNetworks wire)
  ∧ g = registerAll (builtinNetworks wire) emptyRegistry.
Proof.
  unfold init. intros H.
  apply bind_Some in H as (g1 & H1 & H).
  apply bind_Some in H as (g2 & H2 & H).
  apply bind_Some in H as (g3 & H3 & H4).
  apply mustRegister_Some in H1 as [N1 ->].
  apply mustRegister_Some in H2 as [N2 ->].
  apply mustRegister_Some in H3 as [N3 ->].
  apply mustRegister_Some in H4 as [N4 ->].
  split; [| done].
  rewrite !Register_registeredNets in *. simpl in *.
  repeat (apply NoDup_cons; split); [set_solver .. | apply NoDup_nil_2].
Qed.

Lemma init_distinct (wire : WireNets) :
  NoDup (Net <$> builtinNetworks wire) →
  init wire = Some (registerAll (builtinNetworks wire) emptyRegistry).
Proof.
  intros Hnd. simpl in Hnd.
  apply NoDup_cons in Hnd as [N1 Hnd]. apply NoDup_cons in Hnd as [N2 Hnd].
  apply NoDup_cons in Hnd as [N3 Hnd]. apply NoDup_cons in Hnd as [N4 _].
  unfold init.
  assert (H1 : mustRegister (MainNetParams wire) emptyRegistry
               = Some (Register (MainNetParams wire) emptyRegistry).2).
  { apply mustRegister_Some. split; [| done]. simpl. set_solver. }
  rewrite H1. simpl option_bind. cbn [mbind option_bind].
  set (g1 := (Register (MainNetParams wire) emptyRegistry).2).
  assert (H2 : mustRegister (TestNet3Params wire) g1
               = Some (Register (TestNet3Params wire) g1).2).
  { apply mustRegister_Some. split; [| done]. subst g1.
    rewrite Register_registeredNets. simpl. set_solver. }
  rewrite H2. cbn [mbind option_bind].
  set (g2 := (Register (TestNet3Params wire) g1).2).
  assert (H3 : mustRegister (RegressionNetParams wire) g2
               = Some (Register (RegressionNetParams wire) g2).2).
  { apply mustRegister_Some. split; [| done]. subst g2 g1.
    rewrite !Register_registeredNets. simpl. set_solver. }
  rewrite H3. cbn [mbind option_bind].
  apply mustRegister_Some. split; [| done].
  set (g3 := (Register (RegressionNetParams wire) g2).2). subst g3 g2 g1.
  rewrite !Register_registeredNets. simpl. set_solver.
Qed.

(** C1: [Register] returns [ErrDuplicateNet] exactly when the record's
    network magic is already claimed, and [nil] exactly when it is not; any
    record, so each built-in one, is accepted by the fresh registry and
    refused the second time; and with four distinct magics [init] registers
    all four built-in networks, after which registering any of them again
    fails with [ErrDuplicateNet]. *)
Theorem C1_register_duplicate_iff :
  (∀ (p : Params) (g : Registry),
     ((Register p g).1 = Some ErrDuplicateNet ↔ Net p ∈ registeredNets g)
     ∧ ((Register p g).1 = None ↔ Net p ∉ registeredNets g))
  ∧ (∀ p : Params,
       (Register p emptyRegistry).1 = None
       ∧ (Register p (Register p emptyRegistry).2).1 = Some ErrDuplicateNet)
  ∧ (∀ wire : WireNets,
       NoDup (Net <$> builtinNetworks wire) →
       ∃ g, init wire = Some g
            ∧ accepted (builtinNetworks wire) emptyRegistry = builtinNetworks wire
            ∧ ∀ p, p ∈ builtinNetworks wire →
                   (Register p g).1 = Some ErrDuplicateNet).
Proof.
  split; [| split].
  - intros p g. split; [apply Register_error_iff | apply Register_nil_iff].
  - intros p. split.
    + apply Register_nil_iff. simpl. set_solver.
    + apply Register_error_iff, Register_claims_magic.
  - intros wire Hnd. eexists. split; [by apply init_distinct |]. split.
    + apply accepted_all; [done |]. simpl. set_solver.
    + intros p Hp. apply Register_error_iff.
      rewrite registerAll_registeredNets.
      apply elem_of_union_l, elem_of_list_to_set. by apply list_elem_of_fmap_2.
Qed.

Lemma C1_register_duplicate_iff_witness :
  ∃ g, init sampleWire = Some g
       ∧ accepted (builtinNetworks sampleWire) emptyRegistry
         = builtinNetworks sampleWire
       ∧ ∀ p, p ∈ builtinNetworks sampleWire →
              (Register p g).1 = Some ErrDuplicateNet.
Proof.
  apply (proj2 (proj2 C1_register_duplicate_iff) sampleWire).
  vm_compute. repeat (apply NoDup_cons; split); [set_solver .. | apply NoDup_nil_2].
Defined.

(** C9: a [Register] call that returns [ErrDuplicateNet] leaves the five
    maps exactly as they were. *)
Theorem C9_register_error_atomic (p : Params) (g : Registry) :
  (Register p g).1 = Some ErrDuplicateNet →
  (Register p g).2 = g
  ∧ registeredNets (Register p g).2 = registeredNets g
  ∧ pubKeyHashAddrIDs (Register p g).2 = pubKeyHashAddrIDs g
  ∧ scriptHashAddrIDs (Register p g).2 = scriptHashAddrIDs g
  ∧ aztecAddrIDs (Register p g).2 = aztecAddrIDs g
  ∧ hdPrivToPubKeyIDs (Register p g).2 = hdPrivToPubKeyIDs g.
Proof.
  intros Herr. apply Register_error_iff in Herr.
  by rewrite Register_duplicate.
Qed.

Lemma C9_register_error_atomic_witness :
  (Register (MainNetParams sampleWire)
     (Register (MainNetParams sampleWire) emptyRegistry).2).2
  = (Register (MainNetParams sampleWire) emptyRegistry).2.
Proof.
  apply (C9_register_error_atomic (MainNetParams sampleWire)
           (Register (MainNetParams sampleWire) emptyRegistry).2).
  by vm_compute.
Defined.

(* ===================================================================== *)
(** ** What a successful [Register] adds *)
(* ===================================================================== *)

Lemma copy4_slice4 (a : byte4) : copy4 (slice4 a) = a.
Proof. by destruct a as [[[b0 b1] b2] b3]. Qed.

Lemma slice4_copy4 (id : list byte) : length id = 4%nat → slice4 (copy4 id) = id.
Proof.
  intros Hlen. do 4 (destruct id as [| ? id]; [done |]). by destruct id.
Qed.

Lemma length_slice4 (a : byte4) : length (slice4 a) = 4%nat.
Proof. by destruct a as [[[b0 b1] b2] b3]. Qed.

(** The lookup in terms of the map alone. *)
Lemma HDPrivateKeyToPublicKeyID_slice4 (key : byte4) (g : Registry) :
  HDPrivateKeyToPublicKeyID (slice4 key) g =
  match hdPrivToPubKeyIDs g !! key with
  | Some pubBytes => (pubBytes, None)
  | None => ([], Some ErrUnknownHDKeyID)
  end.
Proof.
  unfold HDPrivateKeyToPublicKeyID.
  rewrite decide_False by (rewrite length_slice4; auto).
  by rewrite copy4_slice4.
Qed.

(** No run of [Register] calls ever claims the zero byte as an Aztec
    prefix. *)
Lemma registerAll_aztec_zero (ps : list Params) (g : Registry) :
  x00 ∉ aztecAddrIDs g → x00 ∉ aztecAddrIDs (registerAll ps g).
Proof.
  revert g. induction ps as [| p ps IH]; intros g Hg; [done |].
  simpl. apply IH.
  destruct (decide (Net p ∈ registeredNets g)) as [Hin | Hout].
  - by rewrite Register_duplicate.
  - rewrite Register_fresh by done. simpl. case_decide; set_solver.
Qed.

(** C4: a [Register] call that returns [nil] claims the record's network
    magic, its pubkey-hash and script-hash prefixes whatever their value, its
    Aztec prefix exactly when that byte is not zero, and maps the private HD
    magic to the public one; in the fresh registry every membership test is
    false, and no run of registrations makes [IsAztecAddrID 0] true. *)
Theorem C4_register_effects :
  (∀ (p : Params) (g : Registry),
     (Register p g).1 = None →
     registeredNets (Register p g).2 = {[ Net p ]} ∪ registeredNets g
     ∧ pubKeyHashAddrIDs (Register p g).2
       = {[ PubKeyHashAddrID p ]} ∪ pubKeyHashAddrIDs g
     ∧ scriptHashAddrIDs (Register p g).2
       = {[ ScriptHashAddrID p ]} ∪ scriptHashAddrIDs g
     ∧ aztecAddrIDs (Register p g).2
       = (if decide (AztecAddrID p = x00) then aztecAddrIDs g
          else {[ AztecAddrID p ]} ∪ aztecAddrIDs g)
     ∧ hdPrivToPubKeyIDs (Register p g).2
       = <[ HDPrivateKeyID p := slice4 (HDPublicKeyID p) ]> (hdPrivToPubKeyIDs g)
     ∧ Net p ∈ registeredNets (Register p g).2
     ∧ IsPubKeyHashAddrID (PubKeyHashAddrID p) (Register p g).2 = true
     ∧ IsScriptHashAddrID (ScriptHashAddrID p) (Register p g).2 = true
     ∧ (AztecAddrID p ≠ x00 →
        IsAztecAddrID (AztecAddrID p) (Register p g).2 = true)
     ∧ (AztecAddrID p = x00 →
        IsAztecAddrID x00 (Register p g).2 = IsAztecAddrID x00 g)
     ∧ HDPrivateKeyToPublicKeyID (slice4 (HDPrivateKeyID p)) (Register p g).2
       = (slice4 (HDPublicKeyID p), None))
  ∧ (∀ id : byte,
       IsPubKeyHashAddrID id emptyRegistry = false
       ∧ IsScriptHashAddrID id emptyRegistry = false
       ∧ IsAztecAddrID id emptyRegistry = false)
  ∧ (∀ ps : list Params,
       IsAztecAddrID x00 (registerAll ps emptyRegistry) = false).
Proof.
  split; [| split].
  - intros p g Hok. apply Register_nil_iff in Hok.
    rewrite HDPrivateKeyToPublicKeyID_slice4.
    unfold IsPubKeyHashAddrID, IsScriptHashAddrID, IsAztecAddrID.
    rewrite Register_fresh by done. simpl.
    rewrite lookup_insert_eq.
    repeat match goal with |- _ ∧ _ => split end; try done.
    + repeat case_decide; done.
    + set_solver.
    + apply bool_decide_eq_true. set_solver.
    + apply bool_decide_eq_true. set_solver.
    + intros Hnz. rewrite decide_True by done.
      apply bool_decide_eq_true. set_solver.
    + intros Hz. rewrite decide_False by auto. done.
  - intros id. unfold IsPubKeyHashAddrID, IsScriptHashAddrID, IsAztecAddrID.
    simpl. rewrite !bool_decide_eq_false. set_solver.
  - intros ps. unfold IsAztecAddrID. apply bool_decide_eq_false.
    apply registerAll_aztec_zero. simpl. set_solver.
Qed.

Lemma C4_register_effects_witness :
  IsPubKeyHashAddrID x3f (Register (SimNetParams sampleWire) emptyRegistry).2 = true
  ∧ IsScriptHashAddrID x7b (Register (SimNetParams sampleWire) emptyRegistry).2 = true
  ∧ IsAztecAddrID x00 (Register (SimNetParams sampleWire) emptyRegistry).2
    = IsAztecAddrID x00 emptyRegistry
  ∧ IsAztecAddrID x33 (Register (MainNetParams sampleWire) emptyRegistry).2 = true.
Proof.
  pose proof (proj1 C4_register_effects (SimNetParams sampleWire) emptyRegistry
                ltac:(by vm_compute))
    as (_ & _ & _ & _ & _ & _ & Hpk & Hsh & _ & Haz & _).
  pose proof (proj1 C4_register_effects (MainNetParams sampleWire) emptyRegistry
                ltac:(by vm_compute))
    as (_ & _ & _ & _ & _ & _ & _ & _ & Hmain & _).
  split; [exact Hpk |]. split; [exact Hsh |].
  split; [apply Haz; reflexivity | apply Hmain; by vm_compute].
Defined.

(** C7: two records with distinct, unclaimed network magics and the same
    pubkey-hash prefix are both accepted, in either order the second call
    finds the byte already claimed, and the byte is a pubkey-hash prefix
    after the first call and after the second. *)
Theorem C7_shared_pubkey_hash_prefix (p1 p2 : Params) (g : Registry) :
  Net p1 ≠ Net p2 →
  Net p1 ∉ registeredNets g →
  Net p2 ∉ registeredNets g →
  PubKeyHashAddrID p1 = PubKeyHashAddrID p2 →
  (Register p1 g).1 = None
  ∧ (Register p2 (Register p1 g).2).1 = None
  ∧ IsPubKeyHashAddrID (PubKeyHashAddrID p1) (Register p1 g).2 = true
  ∧ IsPubKeyHashAddrID (PubKeyHashAddrID p1) (Register p2 (Register p1 g).2).2 = true
  ∧ pubKeyHashAddrIDs (Register p2 (Register p1 g).2).2
    = pubKeyHashAddrIDs (Register p1 g).2.
Proof.
  intros Hne H1 H2 Hpk.
  assert (H2' : Net p2 ∉ registeredNets (Register p1 g).2).
  { rewrite Register_registeredNets. set_solver. }
  unfold IsPubKeyHashAddrID.
  rewrite (Register_fresh p2) by done. rewrite (Register_fresh p1) by done.
  simpl. rewrite !bool_decide_eq_true, Hpk.
  repeat match goal with |- _ ∧ _ => split end; try done; set_solver.
Qed.

Lemma C7_shared_pubkey_hash_prefix_witness :
  (Register (TestNet3Params sampleWire) emptyRegistry).1 = None
  ∧ (Register (RegressionNetParams sampleWire)
       (Register (TestNet3Params sampleWire) emptyRegistry).2).1 = None
  ∧ IsPubKeyHashAddrID x6f
      (Register (RegressionNetParams sampleWire)
         (Register (TestNet3Params sampleWire) emptyRegistry).2).2 = true.
Proof.
  pose proof (C7_shared_pubkey_hash_prefix
                (TestNet3Params sampleWire) (RegressionNetParams sampleWire)
                emptyRegistry
                ltac:(by vm_compute) ltac:(by vm_compute) ltac:(by vm_compute)
                ltac:(reflexivity))
    as (H1 & H2 & _ & H4 & _).
  split; [exact H1 |]. split; [exact H2 | exact H4].
Defined.

(* ===================================================================== *)
(** ** The HD map after a run of registrations *)
(* ===================================================================== *)

Lemma lastWithHDPrivateKeyID_cons (key : byte4) (p : Params) (ps : list Params) :
  lastWithHDPrivateKeyID key (p :: ps) =
  match lastWithHDPrivateKeyID key ps with
  | Some q => Some q
  | None => if decide (HDPrivateKeyID p = key) then Some p else None
  end.
Proof.
  unfold lastWithHDPrivateKeyID. rewrite filter_cons.
  case_decide; [| by destruct (last _)].
  by rewrite last_cons.
Qed.

Lemma lastWithHDPrivateKeyID_Some (key : byte4) (ps : list Params) (q : Params) :
  lastWithHDPrivateKeyID key ps = Some q → q ∈ ps ∧ HDPrivateKeyID q = key.
Proof.
  unfold lastWithHDPrivateKeyID. intros H.
  apply last_Some_elem_of, list_elem_of_filter in H. naive_solver.
Qed.

Lemma lastWithHDPrivateKeyID_None (key : byte4) (ps : list Params) :
  lastWithHDPrivateKeyID key ps = None ↔ ∀ q, q ∈ ps → HDPrivateKeyID q ≠ key.
Proof.
  unfold lastWithHDPrivateKeyID. rewrite last_None. split.
  - intros Hnil q Hq Hkey.
    assert (Hin : q ∈ filter (λ p, HDPrivateKeyID p = key) ps)
      by (apply list_elem_of_filter; done).
    rewrite Hnil in Hin. by apply not_elem_of_nil in Hin.
  - intros Hall. induction ps as [| p ps IH]; [done |].
    rewrite filter_cons, decide_False by (apply Hall; set_solver).
    apply IH. intros q Hq. apply Hall. set_solver.
Qed.

(** The invariant of the run: a key maps to the public magic of the last
    accepted record that carries it, and is untouched otherwise. *)
Lemma registerAll_hdPrivToPubKeyIDs (ps : list Params) (g : Registry) (key : byte4) :
  hdPrivToPubKeyIDs (registerAll ps g) !! key =
  match lastWithHDPrivateKeyID key (accepted ps g) with
  | Some q => Some (slice4 (HDPublicKeyID q))
  | None => hdPrivToPubKeyIDs g !! key
  end.
Proof.
  revert g. induction ps as [| p ps IH]; intros g; [done |].
  simpl. rewrite IH.
  destruct (decide (Net p ∈ registeredNets g)) as [Hin | Hout].
  - by rewrite Register_duplicate.
  - rewrite Register_fresh by done. simpl.
    rewrite lastWithHDPrivateKeyID_cons.
    destruct (lastWithHDPrivateKeyID key _) as [q |]; [done |].
    rewrite lookup_insert. by repeat case_decide.
Qed.

(** C3: after any run of registrations from the fresh registry, the lookup
    fails with [ErrUnknownHDKeyID] exactly when the input is not four bytes
    long or no accepted record carries it as private HD magic; otherwise it
    returns, without error, the public HD magic of the most recently
    accepted record carrying it.  Once [init] has run, the main network's
    private magic maps to the main network's public magic. *)
Theorem C3_hd_private_to_public :
  (∀ (ps : list Params) (id : list byte),
     ((HDPrivateKeyToPublicKeyID id (registerAll ps emptyRegistry)).2
        = Some ErrUnknownHDKeyID
      ↔ length id ≠ 4%nat
        ∨ ¬ ∃ p, p ∈ accepted ps emptyRegistry ∧ slice4 (HDPrivateKeyID p) = id)
     ∧ ((HDPrivateKeyToPublicKeyID id (registerAll ps emptyRegistry)).2
          = Some ErrUnknownHDKeyID →
        HDPrivateKeyToPublicKeyID id (registerAll ps emptyRegistry)
          = ([], Some ErrUnknownHDKeyID))
     ∧ ((HDPrivateKeyToPublicKeyID id (registerAll ps emptyRegistry)).2
          ≠ Some ErrUnknownHDKeyID →
        ∃ q, lastWithHDPrivateKeyID (copy4 id) (accepted ps emptyRegistry) = Some q
             ∧ q ∈ accepted ps emptyRegistry
             ∧ slice4 (HDPrivateKeyID q) = id
             ∧ HDPrivateKeyToPublicKeyID id (registerAll ps emptyRegistry)
               = (slice4 (HDPublicKeyID q), None)))
  ∧ (∀ (wire : WireNets) (g : Registry),
       init wire = Some g →
       HDPrivateKeyToPublicKeyID (slice4 (HDPrivateKeyID (MainNetParams wire))) g
       = (slice4 (HDPublicKeyID (MainNetParams wire)), None)).
Proof.
  split.
  - intros ps id. unfold HDPrivateKeyToPublicKeyID.
    destruct (decide (length id ≠ 4%nat)) as [Hlen | Hlen].
    { simpl. split; [naive_solver |]. split; [done |]. by intros []. }
    apply dec_stable in Hlen.
    rewrite registerAll_hdPrivToPubKeyIDs. simpl.
    destruct (lastWithHDPrivateKeyID _ _) as [q |] eqn:Hlast; simpl.
    + apply lastWithHDPrivateKeyID_Some in Hlast as Hq. destruct Hq as [Hq Hkey].
      assert (Hid : slice4 (HDPrivateKeyID q) = id)
        by (rewrite Hkey; by apply slice4_copy4).
      split; [| split]; [| done |].
      * split; [done |]. intros [? | Hnone]; [done |]. destruct Hnone; eauto.
      * intros _. exists q. done.
    + split; [| split]; [| done | by intros []].
      split; [| done]. intros _. right. intros (p & Hp & Hid).
      rewrite lastWithHDPrivateKeyID_None in Hlast.
      apply (Hlast p Hp). by rewrite <- Hid, copy4_slice4.
  - intros wire g Hinit. apply init_Some in Hinit as [Hnd ->].
    rewrite HDPrivateKeyToPublicKeyID_slice4, registerAll_hdPrivToPubKeyIDs.
    rewrite accepted_all by (done || (simpl; set_solver)).
    reflexivity.
Qed.

Lemma C3_hd_private_to_public_witness :
  HDPrivateKeyToPublicKeyID [x04; x88; xad; xe4]
    (registerAll (builtinNetworks sampleWire) emptyRegistry)
  = ([x04; x88; xb2; x1e], None)
  ∧ HDPrivateKeyToPublicKeyID [x04; x88; xad]
      (registerAll (builtinNetworks sampleWire) emptyRegistry)
    = ([], Some ErrUnknownHDKeyID)
  ∧ HDPrivateKeyToPublicKeyID [x04; x88; xad; xe4; x00]
      (registerAll (builtinNetworks sampleWire) emptyRegistry)
    = ([], Some ErrUnknownHDKeyID)
  ∧ HDPrivateKeyToPublicKeyID [x04; x88; xad; xe5]
      (registerAll (builtinNetworks sampleWire) emptyRegistry)
    = ([], Some ErrUnknownHDKeyID).
Proof.
  split; [| split; [| split]].
  - apply (proj2 C3_hd_private_to_public sampleWire). by vm_compute.
  - apply (proj1 C3_hd_private_to_public (builtinNetworks sampleWire)
             [x04; x88; xad]). by vm_compute.
  - apply (proj1 C3_hd_private_to_public (builtinNetworks sampleWire)
             [x04; x88; xad; xe4; x00]). by vm_compute.
  - apply (proj1 C3_hd_private_to_public (builtinNetworks sampleWire)
             [x04; x88; xad; xe5]). by vm_compute.
Defined.

(* ===================================================================== *)
(** ** Two networks with one private HD magic *)
(* ===================================================================== *)

(** C6, as stated, fails: both registrations are accepted, but the lookup
    then returns the public magic of the second record, not of the first. *)
Lemma C6_first_registration_wins_counterexample :
  Net firstHDParams ≠ Net secondHDParams
  ∧ HDPrivateKeyID firstHDParams = HDPrivateKeyID secondHDParams
  ∧ (Register firstHDParams emptyRegistry).1 = None
  ∧ (Register secondHDParams (Register firstHDParams emptyRegistry).2).1 = None
  ∧ HDPrivateKeyToPublicKeyID (slice4 (HDPrivateKeyID firstHDParams))
      (Register secondHDParams (Register firstHDParams emptyRegistry).2).2
    ≠ (slice4 (HDPublicKeyID firstHDParams), None)
  ∧ HDPrivateKeyToPublicKeyID (slice4 (HDPrivateKeyID firstHDParams))
      (Register secondHDParams (Register firstHDParams emptyRegistry).2).2
    = ([x04; x35; x87; xcf], None).
Proof. by vm_compute. Qed.

(** C6 (amended): when two records with distinct, unclaimed network magics
    and the same private HD magic are registered one after the other, both
    calls return [nil] and the second registration overwrites the mapping:
    the lookup on that private magic returns the public magic of the record
    registered last. *)
Theorem C6_last_registration_wins (p1 p2 : Params) (g : Registry) :
  Net p1 ≠ Net p2 →
  Net p1 ∉ registeredNets g →
  Net p2 ∉ registeredNets g →
  HDPrivateKeyID p1 = HDPrivateKeyID p2 →
  (Register p1 g).1 = None
  ∧ (Register p2 (Register p1 g).2).1 = None
  ∧ HDPrivateKeyToPublicKeyID (slice4 (HDPrivateKeyID p1)) (Register p1 g).2
    = (slice4 (HDPublicKeyID p1), None)
  ∧ HDPrivateKeyToPublicKeyID (slice4 (HDPrivateKeyID p1))
      (Register p2 (Register p1 g).2).2
    = (slice4 (HDPublicKeyID p2), None).
Proof.
  intros Hne H1 H2 Hkey.
  assert (H2' : Net p2 ∉ registeredNets (Register p1 g).2).
  { rewrite Register_registeredNets. set_solver. }
  rewrite !HDPrivateKeyToPublicKeyID_slice4.
  rewrite (Register_fresh p2) by done. rewrite (Register_fresh p1) by done.
  simpl. rewrite Hkey, !lookup_insert_eq. done.
Qed.

Lemma C6_last_registration_wins_witness :
  (Register firstHDParams emptyRegistry).1 = None
  ∧ (Register secondHDParams (Register firstHDParams emptyRegistry).2).1 = None
  ∧ HDPrivateKeyToPublicKeyID [x04; x88; xad; xe4]
      (Register secondHDParams (Register firstHDParams emptyRegistry).2).2
    = (slice4 (HDPublicKeyID secondHDParams), None).
Proof.
  pose proof (C6_last_registration_wins firstHDParams secondHDParams emptyRegistry
                ltac:(by vm_compute) ltac:(by vm_compute) ltac:(by vm_compute)
                ltac:(reflexivity))
    as (H1 & H2 & _ & H4).
  split; [exact H1 |]. split; [exact H2 | exact H4].
Defined.

(* ===================================================================== *)
(** ** The registry only grows *)
(* ===================================================================== *)

#[local] Instance claimsKept_refl : Reflexive claimsKept.
Proof. intros g. unfold claimsKept. set_solver. Qed.

#[local] Instance claimsKept_trans : Transitive claimsKept.
Proof. intros g1 g2 g3. unfold claimsKept. set_solver. Qed.

Lemma Register_claimsKept (p : Params) (g : Registry) :
  claimsKept g (Register p g).2.
Proof.
  destruct (decide (Net p ∈ registeredNets g)) as [Hin | Hout].
  - by rewrite Register_duplicate.
  - rewrite Register_fresh by done. unfold claimsKept. simpl.
    rewrite dom_insert_L. case_decide; set_solver.
Qed.

(** The four queries only read the maps. *)
Lemma exec_query_state (c : call) (g : Registry) :
  (∀ params, c ≠ CallRegister params) → (exec c g).2 = g.
Proof.
  intros Hq. destruct c as [params | id | id | id | id]; simpl; try done.
  - by destruct (Hq params).
  - by destruct (HDPrivateKeyToPublicKeyID id g).
Qed.

Lemma exec_claimsKept (c : call) (g : Registry) : claimsKept g (exec c g).2.
Proof.
  destruct c as [params | id | id | id | id]; simpl; try done.
  - pose proof (Register_claimsKept params g).
    by destruct (Register params g).
  - by destruct (HDPrivateKeyToPublicKeyID id g).
Qed.

Lemma execAll_claimsKept (cs : list call) (g : Registry) :
  claimsKept g (execAll cs g).
Proof.
  revert g. induction cs as [| c cs IH]; intros g; simpl; [done |].
  etrans; [apply exec_claimsKept | apply IH].
Qed.

Lemma claimsKept_lookup (g g' : Registry) (id : list byte) :
  claimsKept g g' →
  (HDPrivateKeyToPublicKeyID id g).2 = None →
  (HDPrivateKeyToPublicKeyID id g').2 = None.
Proof.
  intros (_ & _ & _ & _ & Hdom). unfold HDPrivateKeyToPublicKeyID.
  case_decide; [done |].
  destruct (hdPrivToPubKeyIDs g !! copy4 id) as [pub |] eqn:Hg; [| done].
  intros _.
  assert (Hin : copy4 id ∈ dom (hdPrivToPubKeyIDs g')).
  { apply Hdom, elem_of_dom. eauto. }
  apply elem_of_dom in Hin as [pub' ->]. done.
Qed.

(** C8: whatever calls are made, registrations (accepted or refused) and
    queries in any order, every claimed network magic, pubkey-hash,
    script-hash and Aztec prefix and private HD magic is still claimed
    afterwards: the four sets and the key set of the HD map only grow, a
    membership test that returned true returns true, a lookup that succeeded
    succeeds, a magic that was refused is refused; and a query leaves the
    five maps as they were. *)
Theorem C8_registry_append_only (cs : list call) (g : Registry) :
  registeredNets g ⊆ registeredNets (execAll cs g)
  ∧ pubKeyHashAddrIDs g ⊆ pubKeyHashAddrIDs (execAll cs g)
  ∧ scriptHashAddrIDs g ⊆ scriptHashAddrIDs (execAll cs g)
  ∧ aztecAddrIDs g ⊆ aztecAddrIDs (execAll cs g)
  ∧ dom (hdPrivToPubKeyIDs g) ⊆ dom (hdPrivToPubKeyIDs (execAll cs g))
  ∧ (∀ p : Params,
       (Register p g).1 = Some ErrDuplicateNet →
       (Register p (execAll cs g)).1 = Some ErrDuplicateNet)
  ∧ (∀ id : byte,
       (IsPubKeyHashAddrID id g = true →
        IsPubKeyHashAddrID id (execAll cs g) = true)
       ∧ (IsScriptHashAddrID id g = true →
          IsScriptHashAddrID id (execAll cs g) = true)
       ∧ (IsAztecAddrID id g = true →
          IsAztecAddrID id (execAll cs g) = true))
  ∧ (∀ id : list byte,
       (HDPrivateKeyToPublicKeyID id g).2 = None →
       (HDPrivateKeyToPublicKeyID id (execAll cs g)).2 = None)
  ∧ (∀ c : call, (∀ params, c ≠ CallRegister params) → (exec c g).2 = g).
Proof.
  pose proof (execAll_claimsKept cs g) as Hkept.
  pose proof Hkept as (Hnets & Hpk & Hsh & Haz & Hhd).
  do 5 (split; [done |]).
  split; [| split; [| split]].
  - intros p. rewrite !Register_error_iff. apply Hnets.
  - intros id. unfold IsPubKeyHashAddrID, IsScriptHashAddrID, IsAztecAddrID.
    rewrite !bool_decide_eq_true. set_solver.
  - intros id. by apply claimsKept_lookup.
  - intros c. apply exec_query_state.
Qed.

Lemma C8_registry_append_only_witness :
  IsAztecAddrID x33
    (execAll [CallIsAztecAddrID x33;
              CallRegister (SimNetParams sampleWire);
              CallRegister (MainNetParams sampleWire);
              CallHDPrivateKeyToPublicKeyID [x04; x88; xad; xe4];
              CallIsAztecAddrID x33]
       (Register (MainNetParams sampleWire) emptyRegistry).2) = true.
Proof.
  apply (C8_registry_append_only
           [CallIsAztecAddrID x33;
            CallRegister (SimNetParams sampleWire);
            CallRegister (MainNetParams sampleWire);
            CallHDPrivateKeyToPublicKeyID [x04; x88; xad; xe4];
            CallIsAztecAddrID x33]
           (Register (MainNetParams sampleWire) emptyRegistry).2).
  by vm_compute.
Defined.


(* ===================================================================== *)
(** ** The registry as a function of the accepted records *)
(* ===================================================================== *)

Lemma registerAll_app (ps qs : list Params) (g : Registry) :
  registerAll (ps ++ qs) g = registerAll qs (registerAll ps g).
Proof. revert g. induction ps as [| p ps IH]; intros g; simpl; [done | apply IH]. Qed.

Lemma accepted_app (ps qs : list Params) (g : Registry) :
  accepted (ps ++ qs) g = accepted ps g ++ accepted qs (registerAll ps g).
Proof.
  revert g. induction ps as [| p ps IH]; intros g; simpl; [done |].
  destruct (Register p g) as [[e |] g'] eqn:Hreg; simpl; by rewrite IH.
Qed.

Lemma registerAll_pubKeyHashAddrIDs (ps : list Params) (g : Registry) :
  pubKeyHashAddrIDs (registerAll ps g)
  = list_to_set (PubKeyHashAddrID <$> accepted ps g) ∪ pubKeyHashAddrIDs g.
Proof.
  revert g. induction ps as [| p ps IH]; intros g; simpl; [set_solver |].
  rewrite IH. destruct (decide (Net p ∈ registeredNets g)) as [Hin | Hout].
  - by rewrite Register_duplicate.
  - rewrite Register_fresh by done. simpl. set_solver.
Qed.

Lemma registerAll_scriptHashAddrIDs (ps : list Params) (g : Registry) :
  scriptHashAddrIDs (registerAll ps g)
  = list_to_set (ScriptHashAddrID <$> accepted ps g) ∪ scriptHashAddrIDs g.
Proof.
  revert g. induction ps as [| p ps IH]; intros g; simpl; [set_solver |].
  rewrite IH. destruct (decide (Net p ∈ registeredNets g)) as [Hin | Hout].
  - by rewrite Register_duplicate.
  - rewrite Register_fresh by done. simpl. set_solver.
Qed.

Lemma registerAll_aztecAddrIDs (ps : list Params) (g : Registry) :
  aztecAddrIDs (registerAll ps g)
  = list_to_set (filter (λ id, id ≠ x00) (AztecAddrID <$> accepted ps g))
    ∪ aztecAddrIDs g.
Proof.
  revert g. induction ps as [| p ps IH]; intros g; simpl; [set_solver |].
  rewrite IH. destruct (decide (Net p ∈ registeredNets g)) as [Hin | Hout].
  - by rewrite Register_duplicate.
  - rewrite Register_fresh by done. simpl. rewrite filter_cons.
    case_decide; set_solver.
Qed.

(** X1: after any run of registrations a byte is a pubkey-hash prefix
    exactly when it already was one or an accepted record carries it. *)
Theorem X1_pubkey_hash_prefix_iff (ps : list Params) (g : Registry) (id : byte) :
  IsPubKeyHashAddrID id (registerAll ps g) = true
  ↔ IsPubKeyHashAddrID id g = true
    ∨ ∃ p, p ∈ accepted ps g ∧ PubKeyHashAddrID p = id.
Proof.
  unfold IsPubKeyHashAddrID. rewrite !bool_decide_eq_true.
  rewrite registerAll_pubKeyHashAddrIDs, elem_of_union, elem_of_list_to_set,
    list_elem_of_fmap.
  naive_solver.
Qed.

(** X2: after any run of registrations a byte is a script-hash prefix
    exactly when it already was one or an accepted record carries it. *)
Theorem X2_script_hash_prefix_iff (ps : list Params) (g : Registry) (id : byte) :
  IsScriptHashAddrID id (registerAll ps g) = true
  ↔ IsScriptHashAddrID id g = true
    ∨ ∃ p, p ∈ accepted ps g ∧ ScriptHashAddrID p = id.
Proof.
  unfold IsScriptHashAddrID. rewrite !bool_decide_eq_true.
  rewrite registerAll_scriptHashAddrIDs, elem_of_union, elem_of_list_to_set,
    list_elem_of_fmap.
  naive_solver.
Qed.

(** X3: after any run of registrations a byte is an Aztec prefix exactly
    when it already was one or it is not zero and an accepted record carries
    it. *)
Theorem X3_aztec_prefix_iff (ps : list Params) (g : Registry) (id : byte) :
  IsAztecAddrID id (registerAll ps g) = true
  ↔ IsAztecAddrID id g = true
    ∨ (id ≠ x00 ∧ ∃ p, p ∈ accepted ps g ∧ AztecAddrID p = id).
Proof.
  unfold IsAztecAddrID. rewrite !bool_decide_eq_true.
  rewrite registerAll_aztecAddrIDs, elem_of_union, elem_of_list_to_set,
    list_elem_of_filter, list_elem_of_fmap.
  naive_solver.
Qed.

(* ===================================================================== *)
(** ** Which records a run accepts *)
(* ===================================================================== *)

Lemma accepted_elem_of (ps : list Params) (g : Registry) (p : Params) :
  p ∈ accepted ps g → p ∈ ps ∧ Net p ∉ registeredNets g.
Proof.
  revert g. induction ps as [| q ps IH]; intros g; simpl; [by intros ?%not_elem_of_nil |].
  destruct (decide (Net q ∈ registeredNets g)) as [Hin | Hout].
  - rewrite Register_duplicate by done. intros [? ?]%IH. set_solver.
  - rewrite Register_fresh by done.
    intros [-> | Hp]%elem_of_cons; [set_solver |].
    apply IH in Hp as [? Hp]. simpl in Hp. set_solver.
Qed.

Lemma accepted_NoDup (ps : list Params) (g : Registry) :
  NoDup (Net <$> accepted ps g).
Proof.
  revert g. induction ps as [| q ps IH]; intros g; simpl; [apply NoDup_nil_2 |].
  destruct (decide (Net q ∈ registeredNets g)) as [Hin | Hout].
  - rewrite Register_duplicate by done. apply IH.
  - rewrite Register_fresh by done. rewrite fmap_cons.
    apply NoDup_cons. split; [| apply IH].
    intros (p & Heq & Hp)%list_elem_of_fmap.
    apply accepted_elem_of in Hp as [_ Hp]. simpl in Hp. set_solver.
Qed.

Lemma accepted_registeredNets (ps : list Params) (g : Registry) :
  registeredNets (registerAll ps g)
  = list_to_set (Net <$> accepted ps g) ∪ registeredNets g.
Proof.
  revert g. induction ps as [| q ps IH]; intros g; simpl; [set_solver |].
  rewrite IH. destruct (decide (Net q ∈ registeredNets g)) as [Hin | Hout].
  - by rewrite Register_duplicate.
  - rewrite Register_fresh by done. simpl. set_solver.
Qed.

(** X4: the records a run accepts have pairwise distinct network magics,
    none of them claimed before the run; together with the magics claimed
    before, they are exactly the magics claimed after it, and every magic
    submitted in the run is among these. *)
Theorem X4_accepted_magics_distinct (ps : list Params) (g : Registry) :
  NoDup (Net <$> accepted ps g)
  ∧ (∀ p, p ∈ accepted ps g → p ∈ ps ∧ Net p ∉ registeredNets g)
  ∧ registeredNets (registerAll ps g)
    = list_to_set (Net <$> accepted ps g) ∪ registeredNets g
  ∧ (∀ p, p ∈ ps → Net p ∈ registeredNets (registerAll ps g)).
Proof.
  split; [apply accepted_NoDup |]. split; [apply accepted_elem_of |].
  split; [apply accepted_registeredNets |].
  intros p Hp. rewrite registerAll_registeredNets.
  apply elem_of_union_l, elem_of_list_to_set. by apply list_elem_of_fmap_2.
Qed.

Lemma registerAll_size_registeredNets (ps : list Params) (g : Registry) :
  size (registeredNets (registerAll ps g))
  = (size (registeredNets g) + length (accepted ps g))%nat.
Proof.
  revert g. induction ps as [| q ps IH]; intros g; simpl; [lia |].
  rewrite IH. destruct (decide (Net q ∈ registeredNets g)) as [Hin | Hout].
  - by rewrite Register_duplicate.
  - rewrite Register_fresh by done. simpl.
    rewrite size_union by set_solver. rewrite size_singleton. lia.
Qed.

Lemma size_insert_le `{Countable K} (x : K) (s : gset K) :
  (size ({[ x ]} ∪ s) ≤ S (size s))%nat.
Proof.
  rewrite size_union_alt, size_singleton.
  pose proof (subseteq_size (s ∖ {[ x ]}) s ltac:(set_solver)). lia.
Qed.

Lemma registerAll_size_prefixes (ps : list Params) (g : Registry) :
  (size (pubKeyHashAddrIDs (registerAll ps g))
     ≤ size (pubKeyHashAddrIDs g) + length (accepted ps g))%nat
  ∧ (size (scriptHashAddrIDs (registerAll ps g))
       ≤ size (scriptHashAddrIDs g) + length (accepted ps g))%nat
  ∧ (size (aztecAddrIDs (registerAll ps g))
       ≤ size (aztecAddrIDs g) + length (accepted ps g))%nat
  ∧ (size (hdPrivToPubKeyIDs (registerAll ps g))
       ≤ size (hdPrivToPubKeyIDs g) + length (accepted ps g))%nat.
Proof.
  revert g. induction ps as [| q ps IH]; intros g; simpl; [lia |].
  destruct (IH (Register q g).2) as (H1 & H2 & H3 & H4).
  destruct (decide (Net q ∈ registeredNets g)) as [Hin | Hout].
  - rewrite Register_duplicate in * by done. done.
  - rewrite Register_fresh in * by done. simpl in *.
    pose proof (size_insert_le (PubKeyHashAddrID q) (pubKeyHashAddrIDs g)).
    pose proof (size_insert_le (ScriptHashAddrID q) (scriptHashAddrIDs g)).
    pose proof (size_insert_le (AztecAddrID q) (aztecAddrIDs g)).
    assert (size (<[HDPrivateKeyID q := slice4 (HDPublicKeyID q)]>
                    (hdPrivToPubKeyIDs g))
            ≤ S (size (hdPrivToPubKeyIDs g)))%nat.
    { destruct (hdPrivToPubKeyIDs g !! HDPrivateKeyID q) eqn:Hk.
      - rewrite map_size_insert_Some by eauto. lia.
      - rewrite map_size_insert_None by done. lia. }
    case_decide; lia.
Qed.

(** X5: a run claims exactly one new network magic per accepted record, and
    at most one new pubkey-hash prefix, script-hash prefix, Aztec prefix and
    private HD magic per accepted record. *)
Theorem X5_registry_sizes (ps : list Params) (g : Registry) :
  size (registeredNets (registerAll ps g))
  = (size (registeredNets g) + length (accepted ps g))%nat
  ∧ (size (pubKeyHashAddrIDs (registerAll ps g))
       ≤ size (pubKeyHashAddrIDs g) + length (accepted ps g))%nat
  ∧ (size (scriptHashAddrIDs (registerAll ps g))
       ≤ size (scriptHashAddrIDs g) + length (accepted ps g))%nat
  ∧ (size (aztecAddrIDs (registerAll ps g))
       ≤ size (aztecAddrIDs g) + length (accepted ps g))%nat
  ∧ (size (hdPrivToPubKeyIDs (registerAll ps g))
       ≤ size (hdPrivToPubKeyIDs g) + length (accepted ps g))%nat.
Proof.
  split; [apply registerAll_size_registeredNets | apply registerAll_size_prefixes].
Qed.

Lemma registerAll_refused (qs : list Params) (g : Registry) :
  (∀ q, q ∈ qs → Net q ∈ registeredNets g) →
  registerAll qs g = g ∧ accepted qs g = [].
Proof.
  induction qs as [| q qs IH]; intros Hall; simpl; [done |].
  rewrite Register_duplicate by (apply Hall; set_solver). simpl.
  apply IH. intros q' Hq'. apply Hall. set_solver.
Qed.

(** X6: records whose network magic was already submitted earlier in the
    run change nothing: the run with them appended ends in the same registry
    and accepts the same records; in particular running a list twice is
    running it once. *)
Theorem X6_resubmission_is_noop (ps qs : list Params) (g : Registry) :
  (∀ q, q ∈ qs → Net q ∈ (Net <$> ps)) →
  registerAll (ps ++ qs) g = registerAll ps g
  ∧ accepted (ps ++ qs) g = accepted ps g
  ∧ registerAll (ps ++ ps) g = registerAll ps g.
Proof.
  intros Hsub.
  assert (Hqs : ∀ l, (∀ q, q ∈ l → Net q ∈ (Net <$> ps)) →
                     registerAll l (registerAll ps g) = registerAll ps g
                     ∧ accepted l (registerAll ps g) = []).
  { intros l Hl. apply registerAll_refused. intros q Hq.
    rewrite registerAll_registeredNets.
    apply elem_of_union_l, elem_of_list_to_set. by apply Hl. }
  rewrite !registerAll_app, accepted_app.
  destruct (Hqs qs Hsub) as [-> ->].
  destruct (Hqs ps) as [-> _]; [intros q Hq; by apply list_elem_of_fmap_2 |].
  by rewrite app_nil_r.
Qed.

Lemma X6_resubmission_is_noop_witness :
  registerAll (builtinNetworks sampleWire
               ++ [RegressionNetParams sampleWire; mainMagicCustomParams])
    emptyRegistry
  = registerAll (builtinNetworks sampleWire) emptyRegistry.
Proof.
  apply (X6_resubmission_is_noop (builtinNetworks sampleWire)
           [RegressionNetParams sampleWire; mainMagicCustomParams]
           emptyRegistry).
  intros q Hq. apply list_elem_of_In in Hq. simpl in Hq.
  destruct Hq as [<- | [<- | []]]; vm_compute; set_solver.
Defined.

(* ===================================================================== *)
(** ** Order of registrations *)
(* ===================================================================== *)

(** X7: two registrations with different network magics commute, on any
    registry, provided they do not compete for one private HD magic with
    different public magics: the five maps end up the same in either
    order. *)
Theorem X7_register_commute (p1 p2 : Params) (g : Registry) :
  Net p1 ≠ Net p2 →
  HDPrivateKeyID p1 ≠ HDPrivateKeyID p2 ∨ HDPublicKeyID p1 = HDPublicKeyID p2 →
  (Register p2 (Register p1 g).2).2 = (Register p1 (Register p2 g).2).2.
Proof.
  intros Hne Hhd.
  destruct (decide (Net p1 ∈ registeredNets g)) as [H1 | H1];
    destruct (decide (Net p2 ∈ registeredNets g)) as [H2 | H2].
  - rewrite (Register_duplicate p1 g), (Register_duplicate p2 g) by done. simpl.
    by rewrite (Register_duplicate p1 g), (Register_duplicate p2 g).
  - rewrite (Register_duplicate p1 g) by done. simpl.
    rewrite (Register_fresh p2 g) by done. simpl.
    rewrite (Register_duplicate p1) by (simpl; set_solver). done.
  - rewrite (Register_duplicate p2 g) by done. simpl.
    rewrite (Register_fresh p1 g) by done. simpl.
    rewrite (Register_duplicate p2) by (simpl; set_solver). done.
  - rewrite (Register_fresh p1 g), (Register_fresh p2 g) by done. simpl.
    rewrite (Register_fresh p1), (Register_fresh p2) by (simpl; set_solver).
    simpl.
    f_equal.
    + set_solver.
    + set_solver.
    + set_solver.
    + repeat case_decide; set_solver.
    + destruct Hhd as [Hk | Hv].
      * by apply insert_insert_ne.
      * destruct (decide (HDPrivateKeyID p1 = HDPrivateKeyID p2)) as [Hk | Hk].
        -- by rewrite Hk, Hv, !insert_insert_eq.
        -- by apply insert_insert_ne.
Qed.

Lemma X7_register_commute_witness :
  (Register (RegressionNetParams sampleWire)
     (Register (TestNet3Params sampleWire) emptyRegistry).2).2
  = (Register (TestNet3Params sampleWire)
       (Register (RegressionNetParams sampleWire) emptyRegistry).2).2.
Proof.
  apply (X7_register_commute (TestNet3Params sampleWire)
           (RegressionNetParams sampleWire) emptyRegistry).
  - by vm_compute.
  - right. reflexivity.
Defined.

(** X8: a registration touches no identifier but the record's own: the
    three membership tests on any other byte, the lookup of any other
    private HD magic, and the outcome of registering any other network magic
    are what they were before the call. *)
Theorem X8_register_frame (p : Params) (g : Registry) :
  (∀ id, id ≠ PubKeyHashAddrID p →
         IsPubKeyHashAddrID id (Register p g).2 = IsPubKeyHashAddrID id g)
  ∧ (∀ id, id ≠ ScriptHashAddrID p →
           IsScriptHashAddrID id (Register p g).2 = IsScriptHashAddrID id g)
  ∧ (∀ id, id ≠ AztecAddrID p →
           IsAztecAddrID id (Register p g).2 = IsAztecAddrID id g)
  ∧ (∀ id, id ≠ slice4 (HDPrivateKeyID p) →
           HDPrivateKeyToPublicKeyID id (Register p g).2
           = HDPrivateKeyToPublicKeyID id g)
  ∧ (∀ q, Net q ≠ Net p → (Register q (Register p g).2).1 = (Register q g).1).
Proof.
  destruct (decide (Net p ∈ registeredNets g)) as [Hin | Hout].
  { by rewrite Register_duplicate. }
  rewrite Register_fresh by done.
  unfold IsPubKeyHashAddrID, IsScriptHashAddrID, IsAztecAddrID. simpl.
  split; [| split; [| split; [| split]]].
  - intros id Hid. apply bool_decide_ext. set_solver.
  - intros id Hid. apply bool_decide_ext. set_solver.
  - intros id Hid. apply bool_decide_ext. case_decide; set_solver.
  - intros id Hid. unfold HDPrivateKeyToPublicKeyID. simpl.
    destruct (decide (length id ≠ 4%nat)) as [Hlen | Hlen]; [done |].
    apply dec_stable in Hlen.
    rewrite lookup_insert_ne; [done |].
    intros Hkey. apply Hid. rewrite Hkey. by rewrite slice4_copy4.
  - intros q Hq.
    destruct (decide (Net q ∈ registeredNets g)) as [Hq' | Hq'].
    + rewrite (Register_duplicate q g) by done.
      rewrite (Register_duplicate q) by (simpl; set_solver). done.
    + rewrite (Register_fresh q g) by done.
      rewrite (Register_fresh q) by (simpl; set_solver). done.
Qed.

Lemma X8_register_frame_witness :
  IsPubKeyHashAddrID x6f (Register (MainNetParams sampleWire) emptyRegistry).2
  = IsPubKeyHashAddrID x6f emptyRegistry.
Proof.
  apply (X8_register_frame (MainNetParams sampleWire) emptyRegistry).
  by vm_compute.
Defined.

(* ===================================================================== *)
(** ** The registry after [init] *)
(* ===================================================================== *)

(** X9: [init] completes, without a panic in [mustRegister], exactly when
    the four network magics of package [wire] are pairwise distinct; the
    registry it leaves is then the run over the four built-in records, all
    of them accepted. *)
Theorem X9_init_succeeds_iff (wire : WireNets) :
  (is_Some (init wire)
   ↔ NoDup [MainNet wire; TestNet3 wire; TestNet wire; SimNet wire])
  ∧ (∀ g, init wire = Some g →
          g = registerAll (builtinNetworks wire) emptyRegistry
          ∧ accepted (builtinNetworks wire) emptyRegistry = builtinNetworks wire).
Proof.
  split.
  - split.
    + intros [g Hg]. by apply init_Some in Hg as [Hnd _].
    + intros Hnd. rewrite init_distinct; [eauto | done].
  - intros g Hg. apply init_Some in Hg as [Hnd ->]. split; [done |].
    apply accepted_all; [done |]. simpl. set_solver.
Qed.

Lemma X9_init_succeeds_iff_witness :
  is_Some (init sampleWire)
  ∧ init {| MainNet := 1; TestNet := 2; TestNet3 := 2; SimNet := 3 |} = None.
Proof.
  split.
  - apply (proj1 (X9_init_succeeds_iff sampleWire)).
    vm_compute. repeat (apply NoDup_cons; split); [set_solver .. | apply NoDup_nil_2].
  - destruct (init {| MainNet := 1; TestNet := 2; TestNet3 := 2; SimNet := 3 |})
      as [g |] eqn:Hinit; [| reflexivity].
    exfalso.
    pose proof (proj1 (proj1 (X9_init_succeeds_iff
                  {| MainNet := 1; TestNet := 2; TestNet3 := 2; SimNet := 3 |}))
                  ltac:(rewrite Hinit; eauto)) as Hnd.
    simpl in Hnd. apply NoDup_cons in Hnd as [_ Hnd].
    apply NoDup_cons in Hnd as [Hnd _]. set_solver.
Defined.

(** X10: once [init] has run, the pubkey-hash prefixes are exactly 0x00,
    0x6f and 0x3f, the script-hash prefixes exactly 0x05, 0xc4 and 0x7b, the
    Aztec prefixes exactly 0x33 and 0x58 (the simulation network claims
    none); no byte is a prefix of two kinds, so for the built-in networks
    the address kind is never undeterminable. *)
Theorem X10_init_prefixes (wire : WireNets) (g : Registry) (id : byte) :
  init wire = Some g →
  (IsPubKeyHashAddrID id g = true ↔ id ∈ [x00; x6f; x3f])
  ∧ (IsScriptHashAddrID id g = true ↔ id ∈ [x05; xc4; x7b])
  ∧ (IsAztecAddrID id g = true ↔ id ∈ [x33; x58])
  ∧ ¬ (IsPubKeyHashAddrID id g = true ∧ IsScriptHashAddrID id g = true)
  ∧ ¬ (IsPubKeyHashAddrID id g = true ∧ IsAztecAddrID id g = true)
  ∧ ¬ (IsScriptHashAddrID id g = true ∧ IsAztecAddrID id g = true).
Proof.
  intros Hinit. apply init_Some in Hinit as [Hnd ->].
  assert (Hacc : accepted (builtinNetworks wire) emptyRegistry = builtinNetworks wire)
    by (apply accepted_all; [done | simpl; set_solver]).
  unfold IsPubKeyHashAddrID, IsScriptHashAddrID, IsAztecAddrID.
  rewrite !bool_decide_eq_true.
  rewrite registerAll_pubKeyHashAddrIDs, registerAll_scriptHashAddrIDs,
    registerAll_aztecAddrIDs, Hacc.
  simpl. set_solver.
Qed.

Lemma X10_init_prefixes_witness :
  IsPubKeyHashAddrID x6f (registerAll (builtinNetworks sampleWire) emptyRegistry)
  = true.
Proof.
  apply (X10_init_prefixes sampleWire
           (registerAll (builtinNetworks sampleWire) emptyRegistry) x6f
           ltac:(by vm_compute)).
  set_solver.
Defined.

Lemma init_hdPrivToPubKeyIDs (wire : WireNets) (g : Registry) :
  init wire = Some g →
  hdPrivToPubKeyIDs g
  = <[ (x04, x20, xb9, x00) := [x04; x20; xbd; x3a] ]>
      (<[ (x04, x35, x83, x94) := [x04; x35; x87; xcf] ]>
         (<[ (x04, x88, xad, xe4) := [x04; x88; xb2; x1e] ]> ∅)).
Proof.
  unfold init. intros H.
  apply bind_Some in H as (g1 & H1 & H).
  apply bind_Some in H as (g2 & H2 & H).
  apply bind_Some in H as (g3 & H3 & H4).
  apply mustRegister_Some in H1 as [N1 ->].
  apply mustRegister_Some in H2 as [N2 ->].
  apply mustRegister_Some in H3 as [N3 ->].
  apply mustRegister_Some in H4 as [N4 ->].
  rewrite (Register_fresh (SimNetParams wire)) by done.
  rewrite (Register_fresh (RegressionNetParams wire)) by done.
  rewrite (Register_fresh (TestNet3Params wire)) by done.
  rewrite (Register_fresh (MainNetParams wire)) by done.
  simpl. by rewrite insert_insert_eq.
Qed.

(** X11: once [init] has run, the lookup knows exactly three private HD
    magics: xprv maps to xpub, tprv (shared by the test and regression
    networks) to tpub, sprv to spub; every other input, of any length, gets
    [ErrUnknownHDKeyID]. *)
Theorem X11_init_hd_lookup (wire : WireNets) (g : Registry) (id : list byte) :
  init wire = Some g →
  HDPrivateKeyToPublicKeyID id g =
    if decide (id = [x04; x88; xad; xe4]) then ([x04; x88; xb2; x1e], None)
    else if decide (id = [x04; x35; x83; x94]) then ([x04; x35; x87; xcf], None)
    else if decide (id = [x04; x20; xb9; x00]) then ([x04; x20; xbd; x3a], None)
    else ([], Some ErrUnknownHDKeyID).
Proof.
  intros Hinit. unfold HDPrivateKeyToPublicKeyID.
  rewrite (init_hdPrivToPubKeyIDs wire g Hinit).
  destruct (decide (length id ≠ 4%nat)) as [Hlen | Hlen].
  { repeat case_decide; subst; simpl in *; done. }
  apply dec_stable in Hlen.
  do 4 (destruct id as [| ? id]; [done |]). destruct id; [| done].
  unfold copy4. simpl.
  rewrite !lookup_insert, lookup_empty.
  repeat case_decide; simplify_eq; done.
Qed.

Lemma X11_init_hd_lookup_witness :
  HDPrivateKeyToPublicKeyID [x04; x35; x83; x94]
    (registerAll (builtinNetworks sampleWire) emptyRegistry)
  = ([x04; x35; x87; xcf], None).
Proof.
  rewrite (X11_init_hd_lookup sampleWire
             (registerAll (builtinNetworks sampleWire) emptyRegistry)
             [x04; x35; x83; x94] ltac:(by vm_compute)).
  reflexivity.
Defined.

(** X12: on a registry built by registrations alone the lookup has two
    outcomes only: the nil slice with [ErrUnknownHDKeyID], or exactly four
    bytes with no error. *)
Theorem X12_hd_lookup_outcomes (ps : list Params) (id : list byte) :
  HDPrivateKeyToPublicKeyID id (registerAll ps emptyRegistry)
    = ([], Some ErrUnknownHDKeyID)
  ∨ ∃ pubBytes,
      HDPrivateKeyToPublicKeyID id (registerAll ps emptyRegistry) = (pubBytes, None)
      ∧ length pubBytes = 4%nat
      ∧ length id = 4%nat.
Proof.
  unfold HDPrivateKeyToPublicKeyID.
  destruct (decide (length id ≠ 4%nat)) as [Hlen | Hlen]; [by left |].
  apply dec_stable in Hlen. simpl.
  rewrite registerAll_hdPrivToPubKeyIDs.
  destruct (lastWithHDPrivateKeyID _ _) as [q |]; simpl.
  - right. eexists. split; [done |]. by rewrite length_slice4.
  - by left.
Qed.

(* ===================================================================== *)
(** ** The dampening band: exactness, rounding, edge cases *)
(* ===================================================================== *)

Lemma wrap_fixpoint_iff (z : Z) : Int64.wrap z = z ↔ Int64.in_range z.
Proof.
  split; [| apply Int64Facts.wrap_small].
  intros <-. apply Int64Facts.wrap_in_range.
Qed.

(** Truncated quotients by 100 of an integer and of its wrapped value agree
    only when wrapping changed nothing. *)
Lemma quot_wrap_iff (z : Z) :
  Z.quot (Int64.wrap z) 100 = Z.quot z 100 ↔ Int64.in_range z.
Proof.
  split; [| by intros ->%Int64Facts.wrap_small].
  intros Hq. apply wrap_fixpoint_iff.
  destruct (Int64Facts.wrap_decompose z) as [k Hk].
  pose proof (Z.quot_rem' z 100) as Hz.
  pose proof (Z.quot_rem' (Int64.wrap z) 100) as Hw.
  pose proof (Z.rem_bound_abs z 100 ltac:(lia)) as Bz.
  pose proof (Z.rem_bound_abs (Int64.wrap z) 100 ltac:(lia)) as Bw.
  rewrite Hq in Hw. unfold Int64.modulus in Hk.
  assert (k = 0) by lia. subst k. lia.
Qed.

(** X13: each of the three methods returns the exact integer value of its
    formula if and only if the product it forms fits an [int64]; overflow of
    that product is the only way to miss the exact value. *)
Theorem X13_exact_iff_fits (p : Params) :
  (AveragingWindowTimespan p = Spec.averaging_window_timespan p
   ↔ Int64.in_range (Spec.averaging_window_timespan p))
  ∧ (MaxActualTimespan p = Spec.max_actual_timespan p
     ↔ Int64.in_range
         (Spec.averaging_window_timespan p * (100 + PowMaxAdjustDown p)))
  ∧ (MinActualTimespan p = Spec.min_actual_timespan p
     ↔ Int64.in_range
         (Spec.averaging_window_timespan p * (100 - PowMaxAdjustUp p))).
Proof.
  rewrite AveragingWindowTimespan_wrap, MaxActualTimespan_wrap,
    MinActualTimespan_wrap.
  unfold Spec.max_actual_timespan, Spec.min_actual_timespan.
  split; [apply wrap_fixpoint_iff |]. split; apply quot_wrap_iff.
Qed.

Lemma quot100_bounds (x : Z) :
  Z.abs (x - 100 * Z.quot x 100) < 100
  ∧ Z.abs (100 * Z.quot x 100) ≤ Z.abs x
  ∧ (0 ≤ x → 0 ≤ Z.quot x 100)
  ∧ (x ≤ 0 → Z.quot x 100 ≤ 0).
Proof.
  pose proof (Z.quot_rem' x 100) as Hx.
  pose proof (Z.rem_bound_abs x 100 ltac:(lia)) as Bx.
  destruct (Z.le_gt_cases 0 x) as [Hpos | Hneg].
  - pose proof (Z.rem_nonneg x 100 ltac:(lia) Hpos).
    pose proof (Z.quot_pos x 100 Hpos ltac:(lia)). lia.
  - pose proof (Z.rem_nonpos x 100 ltac:(lia) ltac:(lia)).
    assert (Z.quot x 100 ≤ 0).
    { rewrite <- (Z.opp_involutive x), Z.quot_opp_l by lia.
      pose proof (Z.quot_pos (- x) 100 ltac:(lia) ltac:(lia)). lia. }
    lia.
Qed.

(** X14: when the products fit an [int64], each bound is its exact product
    divided by 100 and rounded toward zero: a hundred times the bound differs
    from the product by less than 100 and never exceeds it in magnitude. *)
Theorem X14_rounding_toward_zero (p : Params) :
  Int64.in_range (Spec.averaging_window_timespan p * (100 + PowMaxAdjustDown p)) →
  Int64.in_range (Spec.averaging_window_timespan p * (100 - PowMaxAdjustUp p)) →
  Z.abs (Spec.averaging_window_timespan p * (100 + PowMaxAdjustDown p)
         - 100 * MaxActualTimespan p) < 100
  ∧ Z.abs (100 * MaxActualTimespan p)
    ≤ Z.abs (Spec.averaging_window_timespan p * (100 + PowMaxAdjustDown p))
  ∧ Z.abs (Spec.averaging_window_timespan p * (100 - PowMaxAdjustUp p)
           - 100 * MinActualTimespan p) < 100
  ∧ Z.abs (100 * MinActualTimespan p)
    ≤ Z.abs (Spec.averaging_window_timespan p * (100 - PowMaxAdjustUp p)).
Proof.
  intros Hmax Hmin.
  rewrite MaxActualTimespan_exact, MinActualTimespan_exact by done.
  unfold Spec.max_actual_timespan, Spec.min_actual_timespan.
  pose proof (quot100_bounds
                (Spec.averaging_window_timespan p * (100 + PowMaxAdjustDown p))).
  pose proof (quot100_bounds
                (Spec.averaging_window_timespan p * (100 - PowMaxAdjustUp p))).
  naive_solver.
Qed.

Lemma X14_rounding_toward_zero_witness :
  Z.abs (Spec.averaging_window_timespan oddWindowParams
           * (100 + PowMaxAdjustDown oddWindowParams)
         - 100 * MaxActualTimespan oddWindowParams) < 100.
Proof.
  apply (X14_rounding_toward_zero oddWindowParams); by vm_compute.
Defined.

(** X15: for a non-negative window, percentages with 0 <= down and
    0 <= up <= 100 and a product that fits, the upper bound is the window
    plus the downward allowance rounded down, and the lower bound is the
    window minus the upward allowance rounded up. *)
Theorem X15_band_widths (p : Params) :
  0 ≤ Spec.averaging_window_timespan p →
  0 ≤ PowMaxAdjustDown p →
  0 ≤ PowMaxAdjustUp p ≤ 100 →
  Spec.averaging_window_timespan p * (100 + PowMaxAdjustDown p)
    ≤ Int64.max_signed →
  MaxActualTimespan p
  = AveragingWindowTimespan p
    + (AveragingWindowTimespan p * PowMaxAdjustDown p) / 100
  ∧ MinActualTimespan p
    = AveragingWindowTimespan p
      - (AveragingWindowTimespan p * PowMaxAdjustUp p + 99) / 100.
Proof.
  intros Hw Hdown Hup Hfit.
  set (a := Spec.averaging_window_timespan p) in *.
  assert (Ha : a ≤ Int64.max_signed) by nia.
  rewrite AveragingWindowTimespan_exact, MaxActualTimespan_exact,
    MinActualTimespan_exact;
    unfold Spec.max_actual_timespan, Spec.min_actual_timespan,
      Int64.in_range, Int64.min_signed, Int64.max_signed,
      Int64.half_modulus in *; fold a; try nia.
  rewrite !Z.quot_div_nonneg by nia.
  split.
  - replace (a * (100 + PowMaxAdjustDown p))
      with (a * PowMaxAdjustDown p + a * 100) by lia.
    rewrite Z.div_add by lia. lia.
  - replace (a * (100 - PowMaxAdjustUp p))
      with (- (a * PowMaxAdjustUp p) + a * 100) by lia.
    rewrite Z.div_add by lia.
    pose proof (Z.div_mod (- (a * PowMaxAdjustUp p)) 100 ltac:(lia)).
    pose proof (Z.mod_pos_bound (- (a * PowMaxAdjustUp p)) 100 ltac:(lia)).
    pose proof (Z.div_mod (a * PowMaxAdjustUp p + 99) 100 ltac:(lia)).
    pose proof (Z.mod_pos_bound (a * PowMaxAdjustUp p + 99) 100 ltac:(lia)).
    lia.
Qed.

Lemma X15_band_widths_witness :
  MaxActualTimespan oddWindowParams = AveragingWindowTimespan oddWindowParams + 48
  ∧ MinActualTimespan oddWindowParams = AveragingWindowTimespan oddWindowParams - 24.
Proof.
  apply (X15_band_widths oddWindowParams); by vm_compute.
Defined.

(** X16: between two records with the same non-negative window whose
    products fit, a larger downward percentage never lowers the upper bound
    and a larger upward percentage never raises the lower bound. *)
Theorem X16_band_monotone (p p' : Params) :
  Spec.averaging_window_timespan p = Spec.averaging_window_timespan p' →
  0 ≤ Spec.averaging_window_timespan p →
  PowMaxAdjustDown p ≤ PowMaxAdjustDown p' →
  PowMaxAdjustUp p ≤ PowMaxAdjustUp p' →
  Int64.in_range (Spec.averaging_window_timespan p * (100 + PowMaxAdjustDown p)) →
  Int64.in_range (Spec.averaging_window_timespan p' * (100 + PowMaxAdjustDown p')) →
  Int64.in_range (Spec.averaging_window_timespan p * (100 - PowMaxAdjustUp p)) →
  Int64.in_range (Spec.averaging_window_timespan p' * (100 - PowMaxAdjustUp p')) →
  MaxActualTimespan p ≤ MaxActualTimespan p'
  ∧ MinActualTimespan p' ≤ MinActualTimespan p.
Proof.
  intros Heq Hw Hdown Hup F1 F2 F3 F4.
  rewrite !MaxActualTimespan_exact, !MinActualTimespan_exact by done.
  unfold Spec.max_actual_timespan, Spec.min_actual_timespan.
  rewrite <- Heq.
  split; apply Z.quot_le_mono; nia.
Qed.

Lemma X16_band_monotone_witness :
  MaxActualTimespan (MainNetParams sampleWire)
    ≤ MaxActualTimespan (TestNet3Params sampleWire)
  ∧ MinActualTimespan (TestNet3Params sampleWire)
    ≤ MinActualTimespan (MainNetParams sampleWire).
Proof.
  apply (X16_band_monotone (MainNetParams sampleWire) (TestNet3Params sampleWire));
    by vm_compute.
Defined.

(** X17: a record with a zero averaging window or a zero block time, such
    as Go's zero-value record, has a zero window and zero bounds whatever
    its percentages are. *)
Theorem X17_zero_window (p : Params) :
  PowAveragingWindow p = 0 ∨ TargetTimePerBlock p = 0 →
  AveragingWindowTimespan p = 0
  ∧ MaxActualTimespan p = 0
  ∧ MinActualTimespan p = 0.
Proof.
  intros Hz.
  rewrite AveragingWindowTimespan_wrap, MaxActualTimespan_wrap,
    MinActualTimespan_wrap.
  assert (Spec.averaging_window_timespan p = 0) as ->
    by (unfold Spec.averaging_window_timespan; nia).
  done.
Qed.

Lemma X17_zero_window_witness :
  MaxActualTimespan
    (customParams 0 x00 x00 x00 (x00, x00, x00, x00) (x00, x00, x00, x00) 0 0 0 0)
  = 0.
Proof.
  apply (X17_zero_window
           (customParams 0 x00 x00 x00 (x00, x00, x00, x00) (x00, x00, x00, x00)
              0 0 0 0)).
  left. reflexivity.
Defined.

(** X18: for a non-negative window whose hundredfold fits an [int64]: with
    both percentages zero the band collapses to the window; an upward
    percentage of 100 puts the lower bound at zero; and since the methods do
    not range-check, an upward percentage above 100 whose product fits gives
    a lower bound that is zero or negative. *)
Theorem X18_degenerate_percentages (p : Params) :
  0 ≤ Spec.averaging_window_timespan p →
  Spec.averaging_window_timespan p * 100 ≤ Int64.max_signed →
  (PowMaxAdjustDown p = 0 → MaxActualTimespan p = AveragingWindowTimespan p)
  ∧ (PowMaxAdjustUp p = 0 → MinActualTimespan p = AveragingWindowTimespan p)
  ∧ (PowMaxAdjustUp p = 100 → MinActualTimespan p = 0)
  ∧ (100 < PowMaxAdjustUp p →
     Int64.in_range (Spec.averaging_window_timespan p * (100 - PowMaxAdjustUp p)) →
     MinActualTimespan p ≤ 0).
Proof.
  intros Hw Hfit.
  set (a := Spec.averaging_window_timespan p) in *.
  assert (Ha : Int64.in_range a).
  { unfold Int64.in_range, Int64.min_signed, Int64.max_signed,
      Int64.half_modulus in *. lia. }
  assert (Ha100 : Int64.in_range (a * 100)).
  { unfold Int64.in_range, Int64.min_signed, Int64.max_signed,
      Int64.half_modulus in *. lia. }
  rewrite AveragingWindowTimespan_exact by done. fold a.
  split; [| split; [| split]].
  - intros Hd. rewrite MaxActualTimespan_wrap, Hd. fold a.
    replace (a * (100 + 0)) with (a * 100) by lia.
    rewrite Int64Facts.wrap_small by done. apply Z.quot_mul. lia.
  - intros Hu. rewrite MinActualTimespan_wrap, Hu. fold a.
    replace (a * (100 - 0)) with (a * 100) by lia.
    rewrite Int64Facts.wrap_small by done. apply Z.quot_mul. lia.
  - intros Hu. rewrite MinActualTimespan_wrap, Hu. fold a.
    replace (a * (100 - 100)) with 0 by lia. done.
  - intros Hu Hr. rewrite MinActualTimespan_wrap. fold a.
    rewrite Int64Facts.wrap_small by done.
    apply quot100_bounds. nia.
Qed.

Lemma X18_degenerate_percentages_witness :
  MinActualTimespan
    (customParams 1 x00 x00 x00 (x00, x00, x00, x00) (x00, x00, x00, x00)
       17 time.Minute 32 100)
  = 0.
Proof.
  apply (X18_degenerate_percentages
           (customParams 1 x00 x00 x00 (x00, x00, x00, x00) (x00, x00, x00, x00)
              17 time.Minute 32 100));
    [by vm_compute | by vm_compute | reflexivity].
Defined.

(* ===================================================================== *)
(** ** [powLimitFromStr] *)
(* ===================================================================== *)

Lemma digitVal_nonneg (ch : ascii) (d : Z) : digitVal ch = Some d → 0 ≤ d.
Proof.
  unfold digitVal. intros H.
  repeat match type of H with
         | context [if ?b then _ else _] => destruct b eqn:?
         end; simplify_eq; lia.
Qed.

Lemma scanDigits_bound (base acc : Z) (count : nat) (s : string)
    (abs : Z) (count' : nat) (unread : string) :
  1 < base → 0 ≤ acc →
  scanDigits base acc count s = (abs, count', unread) →
  0 ≤ abs ∧ abs + 1 ≤ (acc + 1) * base ^ Z.of_nat (String.length s).
Proof.
  intros Hb. revert acc count.
  induction s as [| ch s IH]; intros acc count Hacc Hscan; simpl in Hscan.
  - simplify_eq. simpl. lia.
  - assert (Hpow : base ^ Z.of_nat (String.length (String ch s))
                   = base * base ^ Z.of_nat (String.length s)).
    { simpl String.length. rewrite Nat2Z.inj_succ, Z.pow_succ_r by lia. done. }
    assert (Hpos : 0 < base ^ Z.of_nat (String.length s))
      by (apply Z.pow_pos_nonneg; lia).
    rewrite Hpow.
    destruct (digitVal ch) as [d |] eqn:Hd.
    + pose proof (digitVal_nonneg ch d Hd).
      destruct (d <? base) eqn:Hlt.
      * apply Z.ltb_lt in Hlt.
        apply IH in Hscan as [? Hle]; [| nia]. split; [done |].
        etrans; [apply Hle |]. nia.
      * simplify_eq. nia.
    + simplify_eq. nia.
Qed.

(** X19: whenever [powLimitFromStr] yields a value, its magnitude is below
    16 to the number of bytes of the string; so a literal of at most 64
    bytes, as the two in the source, gives a limit that fits the 256 bits
    the [PowLimit] field is documented to hold. *)
Theorem X19_powLimitFromStr_bound (hexStr : string) (limit : Z) :
  powLimitFromStr hexStr = Some limit →
  Z.abs limit < 16 ^ Z.of_nat (String.length hexStr)
  ∧ ((String.length hexStr ≤ 64)%nat → Z.abs limit < 2 ^ 256).
Proof.
  unfold powLimitFromStr, SetString. intros Hset.
  assert (Hlen : Z.abs limit < 16 ^ Z.of_nat (String.length hexStr)).
  { destruct (scanSign hexStr) as [neg digits] eqn:Hsign.
    destruct (scanDigits 16 0 0 digits) as [[abs count] unread] eqn:Hscan.
    apply scanDigits_bound in Hscan as [Habs Hle]; [| lia | lia].
    assert (Hdigits : (String.length digits ≤ String.length hexStr)%nat).
    { unfold scanSign in Hsign.
      destruct hexStr as [| ch rest]; [by simplify_eq |].
      destruct (decide (ch = "-"%char)) as [-> |];
        [simplify_eq; simpl; lia |].
      destruct (decide (ch = "+"%char)) as [-> |];
        [simplify_eq; simpl; lia |].
      assert (digits = String ch rest) as ->; [| done].
      destruct ch as [[] [] [] [] [] [] [] []]; by simplify_eq. }
    assert (16 ^ Z.of_nat (String.length digits)
            ≤ 16 ^ Z.of_nat (String.length hexStr))
      by (apply Z.pow_le_mono_r; lia).
    destruct count; [done |]. destruct unread; [| done].
    destruct neg; simplify_eq; lia. }
  split; [done |]. intros H64.
  assert (16 ^ Z.of_nat (String.length hexStr) ≤ 16 ^ 64)
    by (apply Z.pow_le_mono_r; lia).
  change (2 ^ 256) with (16 ^ 64). lia.
Qed.

Lemma X19_powLimitFromStr_bound_witness :
  Z.abs regressionPowLimit < 2 ^ 256 ∧ Z.abs testNet3PowLimit < 2 ^ 256.
Proof.
  split.
  - apply (X19_powLimitFromStr_bound
             "0f0f0f0f0f0f0f0f0f0f0f0f0f0f0f0f0f0f0f0f0f0f0f0f0f0f0f0f0f0f0f0f"
             regressionPowLimit);
      by vm_compute.
  - apply (X19_powLimitFromStr_bound
             "07ffffffffffffffffffffffffffffffffffffffffffffffffffffffffffffff"
             testNet3PowLimit);
      by vm_compute.
Defined.

(** The parser on its edge inputs: no digits, a sign, upper case, a base
    prefix, a byte that is no hexadecimal digit. *)
Example powLimitFromStr_edges :
  powLimitFromStr "" = None
  ∧ powLimitFromStr "-" = None
  ∧ powLimitFromStr "-ff" = Some (-255)
  ∧ powLimitFromStr "+fF" = Some 255
  ∧ powLimitFromStr "0x1f" = None
  ∧ powLimitFromStr "fg" = None
  ∧ powLimitFromStr "000a" = Some 10.
Proof. by vm_compute. Qed.
